(** * mosdns-log release script: a shallow embedding of [release.py]

    The script resolves each build target into file names, shells out to
    the Go toolchain (and optionally to UPX), packs the binary with the
    configuration file, the readme and the web assets into a zip archive,
    and removes the intermediate binary.

    File names are Python [str] values, modelled as [string]; the process
    environment is a [dict], modelled as a [gmap string string].  The file
    system is a finite map from the paths the script names to files,
    archives and directory trees; paths are compared as written.  The
    toolchain and the compressor are parameters.  The model starts where
    [go_build] starts, with the release directory as working directory.
    Symbolic links, write permissions, the time stamps of directories and
    failures of [ZipFile.close] are outside the model, and the directory
    part of an archive name, if it has one, is taken to exist. *)

From Stdlib Require Import ZArith Bool List Ascii String Lia.
From stdpp Require Import base gmap strings list.

Local Open Scope stdpp_scope.
Set Warnings "-register-all".

(** ** Python [str] operations used by the script *)

Module Str.

(** [s.startswith(p)] *)
Fixpoint startswith (s p : string) {struct p} : bool :=
  match p with
  | EmptyString => true
  | String a p' =>
      match s with
      | EmptyString => false
      | String b s' => Ascii.eqb b a && startswith s' p'
      end
  end.

(** [s.endswith(suf)]: some tail of [s] is [suf]. *)
Fixpoint endswith (s suf : string) : bool :=
  String.eqb s suf ||
  match s with
  | EmptyString => false
  | String _ s' => endswith s' suf
  end.

(** [sub in s] *)
Fixpoint contains (s sub : string) : bool :=
  startswith s sub ||
  match s with
  | EmptyString => false
  | String _ s' => contains s' sub
  end.

(** [s.replace(old, new)] for a non-empty [old] (the script only passes
    the literal ['.exe.zip']): scan from the left; where [old] starts,
    emit [new] and skip the rest of the occurrence; elsewhere copy the
    character.  [skip] counts the characters of a matched occurrence still
    to be dropped. *)
Fixpoint replace_from (old new : string) (skip : nat) (s : string) : string :=
  match s with
  | EmptyString => EmptyString
  | String c r =>
      match skip with
      | S k => replace_from old new k r
      | O =>
          if startswith s old
          then new +:+ replace_from old new (Nat.pred (String.length old)) r
          else String c (replace_from old new 0 r)
      end
  end.

Definition replace (s old new : string) : string := replace_from old new 0 s.

(** [s.removesuffix(suf)] (used only to state properties of names). *)
Fixpoint removesuffix (s suf : string) : string :=
  if String.eqb s suf then EmptyString
  else match s with
       | EmptyString => EmptyString
       | String c s' => if endswith s' suf then String c (removesuffix s' suf) else s
       end.

(** The last character of a string, if any. *)
Fixpoint last_char (s : string) : option ascii :=
  match s with
  | EmptyString => None
  | String c EmptyString => Some c
  | String _ s' => last_char s'
  end.

End Str.

(** ** Configuration (lines 9-19) *)

Definition PROJECT_NAME : string := "mosdns-log".
Definition ENTRY_POINT : string := "../main.go".
Definition CONFIG_FILE : string := "../config.yaml".
Definition RELEASE_DIR : string := "./release".
Definition WEB_DIR : string := "../web".
(** The literal ['../README.md'] of lines 88-89. *)
Definition README_FILE : string := "../README.md".

(** A build target: the ordered list of (variable, value) pairs. *)
Definition TargetSpec : Type := list (string * string).

Definition linux_amd64_v3 : TargetSpec :=
  [("GOOS", "linux"); ("GOARCH", "amd64"); ("GOAMD64", "v3")].

Definition envs : list TargetSpec := [linux_amd64_v3].

(** ** Target resolver (lines 36-57) *)

(** One iteration of [for pairs in env] on the name [s] (lines 42-45). *)
Definition name_step (s : string) (pairs : string * string) : string :=
  if String.eqb pairs.1 "GOOS" || String.eqb pairs.1 "GOARCH"
  then s +:+ "-" +:+ pairs.2
  else if String.eqb pairs.1 "GOAMD64" then s +:+ "-v3"
  else s.

(** The loop of lines 40-45: it overlays the pairs on [os_env] and grows
    the name. *)
Fixpoint resolve_loop (env : TargetSpec) (os_env : gmap string string)
    (s : string) : gmap string string * string :=
  match env with
  | [] => (os_env, s)
  | pairs :: rest =>
      resolve_loop rest (<[pairs.1 := pairs.2]> os_env) (name_step s pairs)
  end.

(** [os_env.get('GOOS') == 'windows'] *)
Definition is_windows (os_env : gmap string string) : bool :=
  bool_decide (os_env !! "GOOS" = Some "windows").

Record BuildConfig : Type := mkBuildConfig {
  os_env : gmap string string;
  name : string;          (* [s] after line 49 *)
  zip_filename : string;
  bin_filename : string
}.

(** Lines 36-57; [environ] is [os.environ]. *)
Definition resolve (environ : gmap string string) (env : TargetSpec) : BuildConfig :=
  let '(os_env, s) := resolve_loop env environ PROJECT_NAME in
  let s := if is_windows os_env then s +:+ ".exe" else s in
  let zip_filename := s +:+ ".zip" in
  let zip_filename :=
    if Str.endswith zip_filename ".exe.zip"
    then Str.replace zip_filename ".exe.zip" ".zip"
    else zip_filename in
  let bin_filename := PROJECT_NAME in
  let bin_filename :=
    if is_windows os_env then bin_filename +:+ ".exe" else bin_filename in
  mkBuildConfig os_env s zip_filename bin_filename.

(** ** The world the script runs in *)

(** What a path of the file system holds.  A regular file is either an
    opaque file, which may or may not be readable by the script, or a zip
    archive, kept as the list of its entry names in the order written.  A
    directory lists its children in [os.scandir] order.  [OldFile] is a
    regular file whose modification time lies before 1980, the earliest
    time a zip entry can carry; the files of the other constructors have a
    time the zip format stores, and the time of a directory is not
    modelled. *)
Inductive node : Type :=
  | File (readable : bool)
  | Archive (entries : list string)
  | Dir (children : list (string * node))
  | OldFile.

Definition is_dir (n : node) : bool :=
  match n with Dir _ => true | _ => false end.

Inductive level : Type := INFO | WARNING | ERROR.

(** The exceptions the modelled calls raise.  [CalledProcessError] is what
    [subprocess.check_call] raises on a non-zero exit status; [ValueError]
    is what [zipfile] raises for a time stamp before 1980; all of them are
    subclasses of [Exception]. *)
Inductive exn : Type :=
  | CalledProcessError (cmd : string) (returncode : Z)
  | OSError (cmd : string)
  | FileNotFoundError (path : string)
  | PermissionError (path : string)
  | IsADirectoryError (path : string)
  | ValueError (path : string).

(** The log calls of the script, one constructor per call site. *)
Inductive message : Type :=
  | MsgStart                                             (* line 29 *)
  | MsgConfigMissing                                     (* line 33 *)
  | MsgBuilding (zip : string) (goos goarch : option string)  (* line 59 *)
  | MsgCompressing                                       (* line 72 *)
  | MsgUpxFailed                                         (* line 76 *)
  | MsgWebMissing                                        (* line 102 *)
  | MsgSuccess (zip : string)                            (* line 108 *)
  | MsgBuildFailed (e : exn)                             (* line 111 *)
  | MsgUnknownError (e : exn).                           (* line 113 *)

(** The file system maps the paths the script names (relative to the
    release directory, compared as written) to what they hold; the files
    below a directory live in its tree. *)
Record World : Type := mkWorld {
  fs : gmap string node;
  log : list (level * message)
}.

(** How a shell command ends: with an exit status, or not started at all. *)
Inductive proc_result : Type :=
  | Exited (returncode : Z)
  | SpawnFailed.

(** The toolchain and the compressor are black boxes: a shell maps the
    command line, the environment of the child and the file system to the
    outcome and the file system the child leaves behind. *)
Definition Shell : Type :=
  string → gmap string string → gmap string node → proc_result * gmap string node.

(** ** State and exceptions *)

(** A computation changes the world and returns a value or raises; the
    changes made before an exception stay. *)
Definition M (A : Type) : Type := World → World * (exn + A).

Global Instance M_ret : MRet M := fun A (a : A) (w : World) => (w, inr a).

Global Instance M_bind : MBind M := fun A B (f : A → M B) (m : M A) (w : World) =>
  match m w with
  | (w', inl e) => (w', inl e)
  | (w', inr a) => f a w'
  end.

(** [try: m  except Exception as e: h e] *)
Definition try_except {A : Type} (m : M A) (h : exn → M A) : M A := fun w =>
  match m w with
  | (w', inl e) => h e w'
  | (w', inr a) => (w', inr a)
  end.

(** [for x in l: f x] *)
Fixpoint for_each {A : Type} (l : list A) (f : A → M unit) : M unit :=
  match l with
  | [] => mret tt
  | x :: rest => _ ← f x; for_each rest f
  end.

(** ** Library calls *)

Definition logger (lvl : level) (msg : message) : M unit := fun w =>
  (mkWorld (fs w) (log w ++ [(lvl, msg)]), inr tt).

(** [os.path.exists(p)] *)
Definition path_exists (p : string) : M bool := fun w =>
  (w, inr (bool_decide (is_Some (fs w !! p)))).

(** [os.path.join(root, file)] for a [root] without trailing separator and
    a file name from a directory listing. *)
Definition path_join (root file : string) : string := root +:+ "/" +:+ file.

(** [os.path.relpath(p, start='..')] on the paths the script passes, which
    all begin with ['../']: the path below the parent directory. *)
Definition relpath_up (p : string) : string :=
  match p with
  | String "." (String "." (String "/" r)) => r
  | _ => p
  end.

(** [os.walk(top)]: top-down, one triple [(root, dirs, files)] per
    directory, then the sub-directories in listing order.  A [top] that is
    not a directory yields nothing.  Each file name comes with what the
    listing found there. *)
Fixpoint os_walk (top : string) (n : node)
    : list (string * list string * list (string * node)) :=
  match n with
  | Dir children =>
      let dirs := List.filter (fun d => is_dir d.2) children in
      let files := List.filter (fun d => negb (is_dir d.2)) children in
      (top, dirs.*1, files) ::
      List.flat_map
        (fun d => let '(d_name, d_node) := d in
                  if is_dir d_node then os_walk (path_join top d_name) d_node
                  else [])
        children
  | _ => []
  end.

Definition walk (top : string)
    : M (list (string * list string * list (string * node))) := fun w =>
  (w, inr (match fs w !! top with Some n => os_walk top n | None => [] end)).

(** ** [zipfile.ZipFile] *)

(** [ZipFile(zf, mode='w')] creates or truncates the file; a directory in
    its place makes the open fail.  The directory the file is created in is
    taken to exist, as it does for a name without a directory part. *)
Definition ZipFile_open (zf : string) : M unit := fun w =>
  match fs w !! zf with
  | Some (Dir _) => (w, inl (IsADirectoryError zf))
  | _ => (mkWorld (<[zf := Archive []]> (fs w)) (log w), inr tt)
  end.

(** The entry name [zf.write(src, arc)] stores for a source that holds
    [st], or the exception it raises: a missing source raises at the
    [os.stat], a file dated before 1980 when the entry is made, an
    unreadable file when it is opened; a directory is stored under
    [arc/]. *)
Definition entry_of (st : option node) (src arc : string) : exn + string :=
  match st with
  | None => inl (FileNotFoundError src)
  | Some (Dir _) => inr (arc +:+ "/")
  | Some OldFile => inl (ValueError src)
  | Some (File false) => inl (PermissionError src)
  | Some _ => inr arc
  end.

Definition entries_at (m : gmap string node) (zf : string) : list string :=
  match m !! zf with
  | Some (Archive es) => es
  | _ => []
  end.

(** [zf.write] of a source whose content [st] is known. *)
Definition zf_add (zf : string) (st : option node) (src arc : string) : M unit :=
  fun w =>
    match entry_of st src arc with
    | inl e => (w, inl e)
    | inr e =>
        (mkWorld (<[zf := Archive (entries_at (fs w) zf ++ [e])]> (fs w)) (log w),
         inr tt)
    end.

(** [zf.write(src, arc)] *)
Definition zf_write (zf src arc : string) : M unit := fun w =>
  zf_add zf (fs w !! src) src arc w.

(** [os.remove(p)] *)
Definition os_remove (p : string) : M unit := fun w =>
  match fs w !! p with
  | None => (w, inl (FileNotFoundError p))
  | Some (Dir _) => (w, inl (IsADirectoryError p))
  | Some _ => (mkWorld (delete p (fs w)) (log w), inr tt)
  end.

(** ** The script *)

Definition dquote : string := String (Ascii.ascii_of_nat 34) EmptyString.

(** The command line of line 65. *)
Definition build_cmd (bin : string) : string :=
  "go build -ldflags " +:+ dquote +:+ "-s -w" +:+ dquote +:+
  " -trimpath -o " +:+ bin +:+ " " +:+ ENTRY_POINT.

(** The command line of line 73. *)
Definition upx_cmd (bin : string) : string := "upx -9 -q " +:+ bin.

Section Script.

Variable shell : Shell.
(** [args.upx] *)
Variable upx : bool.
(** [os.environ] *)
Variable environ : gmap string string.

(** [subprocess.check_call(cmd, shell=True, env=env)] *)
Definition check_call (cmd : string) (env : gmap string string) : M unit :=
  fun w =>
    let '(r, fs') := shell cmd env (fs w) in
    let w' := mkWorld fs' (log w) in
    match r with
    | Exited 0 => (w', inr tt)
    | Exited c => (w', inl (CalledProcessError cmd c))
    | SpawnFailed => (w', inl (OSError cmd))
    end.

(** Lines 65-67. *)
Definition build_step (c : BuildConfig) : M unit :=
  check_call (build_cmd (bin_filename c)) (os_env c).

(** Lines 70-76; the compressor inherits [os.environ]. *)
Definition upx_step (c : BuildConfig) : M unit :=
  if upx then
    try_except
      (_ ← logger INFO MsgCompressing;
       check_call (upx_cmd (bin_filename c)) environ)
      (fun _ => logger ERROR MsgUpxFailed)
  else mret tt.

(** Lines 93-100: the loop over the walk of the asset directory. *)
Definition add_web (zf : string)
    (tree : list (string * list string * list (string * node))) : M unit :=
  for_each tree (fun '(root, dirs, files) =>
    for_each files (fun '(file, st) =>
      let file_path := path_join root file in
      let archive_path := relpath_up file_path in
      zf_add zf (Some st) file_path archive_path)).

(** Lines 80-102: the body of the [with] block. *)
Definition zip_body (c : BuildConfig) : M unit :=
  let zf := zip_filename c in
  _ ← zf_write zf (bin_filename c) (bin_filename c);
  has_config ← path_exists CONFIG_FILE;
  _ ← (if has_config : bool then zf_write zf CONFIG_FILE "config.yaml" else mret tt);
  has_readme ← path_exists README_FILE;
  _ ← (if has_readme : bool then zf_write zf README_FILE "README.md" else mret tt);
  has_web ← path_exists WEB_DIR;
  if has_web : bool then
    tree ← walk WEB_DIR;
    add_web zf tree
  else logger WARNING MsgWebMissing.

(** Lines 79-102: the [with zipfile.ZipFile(...)] block.  Entries reach
    the file as they are written, so leaving the block, normally or by
    an exception, leaves the archive with the entries written so far. *)
Definition zip_step (c : BuildConfig) : M unit :=
  _ ← ZipFile_open (zip_filename c);
  zip_body c.

(** Lines 105-106. *)
Definition cleanup_step (c : BuildConfig) : M unit :=
  still_there ← path_exists (bin_filename c);
  if still_there : bool then os_remove (bin_filename c) else mret tt.

(** Lines 65-76: the toolchain and the optional compressor. *)
Definition build_phase (c : BuildConfig) : M unit :=
  _ ← build_step c;
  upx_step c.

(** Lines 79-108: archive, clean up, report. *)
Definition package (c : BuildConfig) : M unit :=
  _ ← zip_step c;
  _ ← cleanup_step c;
  logger INFO (MsgSuccess (zip_filename c)).

(** Lines 62-108: the body of the [try]. *)
Definition target_body (c : BuildConfig) : M unit :=
  _ ← build_phase c;
  package c.

(** Lines 110-113: the two [except] clauses. *)
Definition on_error (e : exn) : M unit :=
  match e with
  | CalledProcessError _ _ => logger ERROR (MsgBuildFailed e)
  | _ => logger ERROR (MsgUnknownError e)
  end.

(** Lines 36-113: one iteration of [for env in envs]. *)
Definition process_target (env : TargetSpec) : M unit :=
  let c := resolve environ env in
  _ ← logger INFO
        (MsgBuilding (zip_filename c) (os_env c !! "GOOS") (os_env c !! "GOARCH"));
  try_except (target_body c) on_error.

(** Lines 28-113, with the target list as a parameter. *)
Definition go_build (targets : list TargetSpec) : M unit :=
  _ ← logger INFO MsgStart;
  has_config ← path_exists CONFIG_FILE;
  _ ← (if has_config : bool then mret tt else logger WARNING MsgConfigMissing);
  for_each targets process_target.

End Script.

(** ** Auxiliary definitions for the statements *)

(** What one pair appends to the name (lines 42-45). *)
Definition name_piece (pairs : string * string) : string := name_step "" pairs.

(** What the pairs of a target append to the project name, in order. *)
Fixpoint name_suffix (env : TargetSpec) : string :=
  match env with
  | [] => ""
  | pairs :: rest => name_piece pairs +:+ name_suffix rest
  end.

(** The archive path is none of the paths the script reads. *)
Definition names_ok (c : BuildConfig) : Prop :=
  bin_filename c ≠ zip_filename c ∧ CONFIG_FILE ≠ zip_filename c ∧
  README_FILE ≠ zip_filename c ∧ WEB_DIR ≠ zip_filename c.

(** The warning of line 102 is reached when no write raised and the asset
    directory is absent. *)
Definition web_warning (raised : option exn) (web : option node)
    : list (level * message) :=
  match raised, web with
  | None, None => [(WARNING, MsgWebMissing)]
  | _, _ => []
  end.

(** The toolchain exits with status 0 on file system [m]. *)
Definition build_ok (shell : Shell) (c : BuildConfig) (m : gmap string node) : Prop :=
  (shell (build_cmd (bin_filename c)) (os_env c) m).1 = Exited 0.

(** The file system after the toolchain and, if enabled, the compressor. *)
Definition built_fs (shell : Shell) (upx : bool) (environ : gmap string string)
    (c : BuildConfig) (m : gmap string node) : gmap string node :=
  let fs1 := (shell (build_cmd (bin_filename c)) (os_env c) m).2 in
  if upx then (shell (upx_cmd (bin_filename c)) environ fs1).2 else fs1.

(** What lines 70-76 log after a successful build. *)
Definition upx_log (shell : Shell) (upx : bool) (environ : gmap string string)
    (c : BuildConfig) (m : gmap string node) : list (level * message) :=
  let fs1 := (shell (build_cmd (bin_filename c)) (os_env c) m).2 in
  if upx then
    match (shell (upx_cmd (bin_filename c)) environ fs1).1 with
    | Exited 0 => [(INFO, MsgCompressing)]
    | _ => [(INFO, MsgCompressing); (ERROR, MsgUpxFailed)]
    end
  else [].

(** The line-59 log record of a target. *)
Definition building (c : BuildConfig) : level * message :=
  (INFO, MsgBuilding (zip_filename c) (os_env c !! "GOOS") (os_env c !! "GOARCH")).

(** How the [with] block of lines 79-102 ends on file system [m]. *)
Definition zip_result (c : BuildConfig) (m : gmap string node) : exn + unit :=
  (zip_step c (mkWorld m [])).2.

(** One [zf.write]: what the source holds, the source, the archive name. *)
Definition item : Type := option node * string * string.

Definition zf_add_item (zf : string) (it : item) : M unit :=
  zf_add zf it.1.1 it.1.2 it.2.

(** The entry names a sequence of writes stores, up to the first write
    that raises, and that exception. *)
Fixpoint written (items : list item) : list string * option exn :=
  match items with
  | [] => ([], None)
  | it :: rest =>
      match entry_of it.1.1 it.1.2 it.2 with
      | inl e => ([], Some e)
      | inr n => let r := written rest in (n :: r.1, r.2)
      end
  end.

(** The writes of lines 93-100 for a walk. *)
Definition web_items (tree : list (string * list string * list (string * node)))
    : list item :=
  List.flat_map (fun t : string * list string * list (string * node) =>
    List.map (fun f : string * node =>
                (Some f.2, path_join t.1.1 f.1, relpath_up (path_join t.1.1 f.1)))
             t.2) tree.

(** The writes of lines 81-100 on file system [m], in order. *)
Definition manifest (c : BuildConfig) (m : gmap string node) : list item :=
  [(m !! bin_filename c, bin_filename c, bin_filename c)] ++
  (if bool_decide (is_Some (m !! CONFIG_FILE))
   then [(m !! CONFIG_FILE, CONFIG_FILE, "config.yaml")] else []) ++
  (if bool_decide (is_Some (m !! README_FILE))
   then [(m !! README_FILE, README_FILE, "README.md")] else []) ++
  match m !! WEB_DIR with
  | Some n => web_items (os_walk WEB_DIR n)
  | None => []
  end.

(** The record the [except] clauses of lines 110-113 log for [e]. *)
Definition error_record (e : exn) : level * message :=
  (ERROR, match e with
          | CalledProcessError _ _ => MsgBuildFailed e
          | _ => MsgUnknownError e
          end).

(** The file system and the log records that lines 79-113 leave when they
    start on file system [m]. *)
Definition packaged (c : BuildConfig) (m : gmap string node)
    : gmap string node * list (level * message) :=
  match m !! zip_filename c with
  | Some (Dir _) => (m, [error_record (IsADirectoryError (zip_filename c))])
  | _ =>
      let r := written (manifest c m) in
      let m2 := <[zip_filename c := Archive r.1]> m in
      match r.2 with
      | Some e => (m2, [error_record e])
      | None =>
          match m !! bin_filename c with
          | None =>
              (m2, web_warning None (m !! WEB_DIR) ++
                   [(INFO, MsgSuccess (zip_filename c))])
          | Some (Dir _) =>
              (m2, web_warning None (m !! WEB_DIR) ++
                   [error_record (IsADirectoryError (bin_filename c))])
          | Some _ =>
              (delete (bin_filename c) m2,
               web_warning None (m !! WEB_DIR) ++
               [(INFO, MsgSuccess (zip_filename c))])
          end
      end
  end.

(** [T] performs the writes [items] into the archive open at [zf] on
    file system [m] and then reaches, or not, the warning about the asset
    directory [web]. *)
Definition runs_as (zf : string) (m : gmap string node) (T : M unit)
    (items : list item) (web : option node) : Prop :=
  ∀ es lg,
    T (mkWorld (<[zf := Archive es]> m) lg) =
    (mkWorld (<[zf := Archive (es ++ (written items).1)]> m)
             (lg ++ web_warning (written items).2 web),
     match (written items).2 with Some e => inl e | None => inr tt end).

(** Case analysis on the comparisons of a variable character that
    [startswith] on a literal leaves in the goal. *)
Ltac eqb_cases :=
  repeat match goal with
         | |- context [Ascii.eqb ?v ?k] =>
             is_var v; destruct (Ascii.eqb v k); simpl
         end;
  simpl; try congruence.

(** Induction on file-system trees. *)
Fixpoint node_tree_ind (P : node → Prop)
    (HF : ∀ r, P (File r)) (HA : ∀ es, P (Archive es))
    (HD : ∀ ch, Forall (fun d : string * node => P d.2) ch → P (Dir ch))
    (HO : P OldFile)
    (n : node) : P n :=
  match n with
  | File r => HF r
  | Archive es => HA es
  | OldFile => HO
  | Dir ch =>
      HD ch ((fix go (l : list (string * node)) : Forall (fun d => P d.2) l :=
                match l with
                | [] => @List.Forall_nil _ _
                | d :: l' =>
                    @List.Forall_cons _ _ d l'
                      (match d return P d.2 with
                       | (_, n') => node_tree_ind P HF HA HD HO n'
                       end)
                      (go l')
                end) ch)
  end.

(** Sample shells: a toolchain that writes the binary [mosdns-log], on a
    machine without the compressor (the shell reports status 127); and a
    toolchain that fails. *)
Definition toolchain_ok : Shell := fun cmd _ m =>
  if Str.startswith cmd "go build"
  then (Exited 0, <["mosdns-log" := File true]> m)
  else (Exited 127, m).

Definition toolchain_broken : Shell := fun _ _ m => (Exited 2, m).

(** Sample project trees, as seen from the release directory. *)
Definition full_tree : gmap string node :=
  <[CONFIG_FILE := File true]>
    (<[README_FILE := File true]>
       (<[WEB_DIR := Dir [("index.html", File true);
                          ("css", Dir [("style.css", File true)])]]> ∅)).

Definition bare_tree : gmap string node := <[README_FILE := File true]> ∅.

Definition locked_tree : gmap string node := <[README_FILE := File false]> ∅.

Definition dated_tree : gmap string node := <[README_FILE := OldFile]> ∅.

(** The configured target on a clean machine, and sample starting worlds. *)
Definition sample_cfg : BuildConfig := resolve ∅ linux_amd64_v3.
Definition full_world : World := mkWorld full_tree [].
Definition bare_world : World := mkWorld bare_tree [].
Definition locked_world : World := mkWorld locked_tree [].
Definition dated_world : World := mkWorld dated_tree [].

(** Sample targets. *)
Definition windows_amd64 : TargetSpec := [("GOOS", "windows"); ("GOARCH", "amd64")].
Definition windows_odd : TargetSpec := [("GOOS", "windows"); ("GOARCH", "a.exe")].
Definition windows_then_linux : TargetSpec := [("GOOS", "windows"); ("GOOS", "linux")].

(** ** Further definitions for the statements *)

(** The path components [comps] lead from the directory [n] down to the
    file [st]. *)
Inductive file_at : node → list string → node → Prop :=
  | file_here ch nm st :
      (nm, st) ∈ ch → is_dir st = false → file_at (Dir ch) [nm] st
  | file_below ch nm sub comps st :
      (nm, sub) ∈ ch → file_at sub comps st → file_at (Dir ch) (nm :: comps) st.

(** The components of a relative path, joined by [/]. *)
Fixpoint join_comps (comps : list string) : string :=
  match comps with
  | [] => ""
  | [c] => c
  | c :: rest => c +:+ "/" +:+ join_comps rest
  end.

(** Sample shells: a compressor that works; a toolchain that finds a
    directory at its output path and writes the binary into it. *)
Definition toolchain_and_upx : Shell := fun cmd _ m =>
  if Str.startswith cmd "go build"
  then (Exited 0, <["mosdns-log" := File true]> m)
  else (Exited 0, m).

Definition toolchain_into_dir : Shell := fun _ _ m =>
  (Exited 0, <["mosdns-log" := Dir [("main", File true)]]> m).

(** * Facts about the string operations *)

Module StrFacts.
Import Str.

Lemma app_cons c a b : String c a +:+ b = String c (a +:+ b).
Proof. reflexivity. Qed.

Lemma app_nil_l a : "" +:+ a = a.
Proof. reflexivity. Qed.

Lemma app_nil_r a : a +:+ "" = a.
Proof. induction a as [|c a IH]; [reflexivity|]. by rewrite app_cons, IH. Qed.

Lemma app_assoc a b c : (a +:+ b) +:+ c = a +:+ (b +:+ c).
Proof. induction a as [|x a IH]; [reflexivity|]. by rewrite !app_cons, IH. Qed.

Lemma length_app a b : String.length (a +:+ b) = String.length a + String.length b.
Proof. induction a as [|x a IH]; [reflexivity|]. rewrite app_cons. simpl. by rewrite IH. Qed.

Lemma app_inv_r a b z : a +:+ z = b +:+ z → a = b.
Proof.
  revert b. induction a as [|x a IH]; intros [|y b] H.
  - reflexivity.
  - apply (f_equal String.length) in H. rewrite app_nil_l, app_cons in H.
    simpl in H. rewrite length_app in H. lia.
  - apply (f_equal String.length) in H. rewrite app_nil_l, app_cons in H.
    simpl in H. rewrite length_app in H. lia.
  - rewrite !app_cons in H. injection H as -> H. f_equal. by apply IH.
Qed.

Lemma eqb_app_r a b z : String.eqb (a +:+ z) (b +:+ z) = String.eqb a b.
Proof.
  destruct (String.eqb_spec a b) as [->|Hne].
  - apply String.eqb_refl.
  - apply String.eqb_neq. intros H. by apply Hne, app_inv_r with z.
Qed.

(** ** [startswith] *)

Lemma startswith_cons b s a p :
  startswith (String b s) (String a p) = Ascii.eqb b a && startswith s p.
Proof. reflexivity. Qed.

Lemma startswith_app p t : startswith (p +:+ t) p = true.
Proof.
  induction p as [|a p IH]; [reflexivity|].
  rewrite app_cons. simpl. by rewrite Ascii.eqb_refl, IH.
Qed.

Lemma startswith_inv s p : startswith s p = true → ∃ t, s = p +:+ t.
Proof.
  revert s. induction p as [|a p IH]; intros s H.
  - by exists s.
  - destruct s as [|b s]; [discriminate|]. simpl in H.
    apply andb_true_iff in H as [Hc H]. apply Ascii.eqb_eq in Hc as ->.
    destruct (IH _ H) as [t ->]. by exists t.
Qed.

Lemma startswith_app_l s t p : startswith s p = true → startswith (s +:+ t) p = true.
Proof.
  intros [u ->]%startswith_inv. rewrite app_assoc. apply startswith_app.
Qed.

(** ** [endswith] *)

Lemma endswith_nil suf : endswith "" suf = String.eqb "" suf || false.
Proof. reflexivity. Qed.

Lemma endswith_cons c s suf :
  endswith (String c s) suf = String.eqb (String c s) suf || endswith s suf.
Proof. reflexivity. Qed.

Lemma endswith_refl s : endswith s s = true.
Proof. destruct s; by rewrite ?endswith_nil, ?endswith_cons, String.eqb_refl. Qed.

Lemma endswith_app s suf : endswith (s +:+ suf) suf = true.
Proof.
  induction s as [|c s IH]; [apply endswith_refl|].
  rewrite app_cons, endswith_cons, IH. apply orb_true_r.
Qed.

Lemma endswith_inv s suf : endswith s suf = true → ∃ pre, s = pre +:+ suf.
Proof.
  induction s as [|c s IH]; intros H.
  - rewrite endswith_nil, orb_false_r in H. apply String.eqb_eq in H as <-. by exists "".
  - rewrite endswith_cons in H. apply orb_true_iff in H as [H|H].
    + apply String.eqb_eq in H as <-. by exists "".
    + destruct (IH H) as [pre ->]. by exists (String c pre).
Qed.

Lemma endswith_app_r s a z : endswith (s +:+ z) (a +:+ z) = endswith s a.
Proof.
  induction s as [|c s IH].
  - rewrite app_nil_l, endswith_nil, orb_false_r.
    destruct a as [|x a].
    + rewrite app_nil_l. apply endswith_refl.
    + destruct (endswith z (String x a +:+ z)) eqn:E; [|reflexivity].
      apply endswith_inv in E as [pre E].
      apply (f_equal String.length) in E. rewrite !length_app in E.
      simpl in E. lia.
  - rewrite app_cons, !endswith_cons, IH. f_equal.
    rewrite <- app_cons. apply eqb_app_r.
Qed.

(** ** [contains] *)

Lemma contains_nil sub : contains "" sub = startswith "" sub || false.
Proof. destruct sub; reflexivity. Qed.

Lemma contains_cons c s sub :
  contains (String c s) sub = startswith (String c s) sub || contains s sub.
Proof. destruct sub; reflexivity. Qed.

Lemma contains_empty s : contains s "" = true.
Proof. destruct s; reflexivity. Qed.

Lemma contains_app_l s t sub : contains s sub = true → contains (s +:+ t) sub = true.
Proof.
  induction s as [|c s IH]; intros H.
  - rewrite contains_nil, orb_false_r in H.
    apply startswith_inv in H as [u H]. destruct sub; [|discriminate].
    apply contains_empty.
  - rewrite contains_cons in H. rewrite app_cons, contains_cons.
    apply orb_true_iff in H as [H|H].
    + rewrite <- app_cons. by rewrite (startswith_app_l _ _ _ H).
    + rewrite IH by done. apply orb_true_r.
Qed.

Lemma contains_app_r s t sub : contains t sub = true → contains (s +:+ t) sub = true.
Proof.
  intros H. induction s as [|c s IH]; [done|].
  rewrite app_cons, contains_cons, IH. apply orb_true_r.
Qed.

(** ** [removesuffix] *)

Lemma removesuffix_eq s suf :
  removesuffix s suf =
  if String.eqb s suf then ""
  else match s with
       | "" => ""
       | String c s' => if endswith s' suf then String c (removesuffix s' suf) else s
       end.
Proof. destruct s; reflexivity. Qed.

Lemma removesuffix_app s suf : suf ≠ "" → removesuffix (s +:+ suf) suf = s.
Proof.
  intros Hsuf. induction s as [|c s IH].
  - rewrite app_nil_l. destruct suf; [done|].
    rewrite removesuffix_eq. by rewrite String.eqb_refl.
  - rewrite app_cons, removesuffix_eq, endswith_app, IH.
    destruct (String.eqb_spec (String c (s +:+ suf)) suf) as [E|_]; [|done].
    apply (f_equal String.length) in E. simpl in E. rewrite length_app in E. lia.
Qed.

Lemma removesuffix_inv s suf : s = removesuffix s suf +:+ suf ∨ s = removesuffix s suf.
Proof.
  induction s as [|c s IH]; rewrite removesuffix_eq.
  - destruct (String.eqb_spec "" suf) as [<-|_]; auto.
  - destruct (String.eqb_spec (String c s) suf) as [<-|_]; [by left|].
    destruct (endswith s suf) eqn:E; [|by right].
    apply endswith_inv in E as [pre E].
    destruct IH as [IH|IH].
    + left. rewrite app_cons. by rewrite <- IH.
    + right. by rewrite <- IH.
Qed.

(** ** [last_char] *)

Lemma last_char_cons c s : s ≠ "" → last_char (String c s) = last_char s.
Proof. destruct s; [done|reflexivity]. Qed.

Lemma last_char_app s t : t ≠ "" → last_char (s +:+ t) = last_char t.
Proof.
  intros Ht. induction s as [|c s IH]; [done|].
  rewrite app_cons, last_char_cons; [done|].
  destruct s; [by rewrite app_nil_l|by rewrite app_cons].
Qed.

(** ** [replace] *)

Lemma replace_from_cons old new c r :
  replace_from old new 0 (String c r) =
  if startswith (String c r) old
  then new +:+ replace_from old new (Nat.pred (String.length old)) r
  else String c (replace_from old new 0 r).
Proof. reflexivity. Qed.

Lemma replace_skip old new u t :
  replace_from old new (String.length u) (u +:+ t) = replace_from old new 0 t.
Proof. induction u as [|c u IH]; [reflexivity|]. rewrite app_cons. exact IH. Qed.

(** At an occurrence of [old], [new] is emitted and the scan resumes after
    the occurrence. *)
Lemma replace_match old new t :
  old ≠ "" → replace (old +:+ t) old new = new +:+ replace t old new.
Proof.
  destruct old as [|a old]; [done|]. intros _. unfold replace.
  rewrite app_cons, replace_from_cons, <- app_cons, startswith_app.
  simpl Nat.pred. by rewrite replace_skip.
Qed.

(** Elsewhere the character is copied. *)
Lemma replace_nomatch old new c r :
  startswith (String c r) old = false →
  replace (String c r) old new = String c (replace r old new).
Proof. intros H. unfold replace. by rewrite replace_from_cons, H. Qed.

(** Induction along the scan of [replace]. *)
Lemma replace_ind old new (P : string → string → Prop) :
  old ≠ "" →
  P "" "" →
  (∀ t r, P t r → P (old +:+ t) (new +:+ r)) →
  (∀ c t r, startswith (String c t) old = false → P t r → P (String c t) (String c r)) →
  ∀ s, P s (replace s old new).
Proof.
  intros Hold Hnil Hmatch Hcopy s.
  remember (String.length s) as n eqn:Hn.
  assert (Hle : String.length s ≤ n) by lia. clear Hn.
  revert s Hle. induction n as [|n IH]; intros [|c r] Hle; simpl in Hle;
    try exact Hnil; [lia|].
  destruct (startswith (String c r) old) eqn:E.
  - apply startswith_inv in E as [t E]. rewrite E, replace_match by done.
    apply Hmatch, IH.
    apply (f_equal String.length) in E. rewrite length_app in E. simpl in E.
    destruct old; [done|]. simpl in E. lia.
  - rewrite replace_nomatch by done. apply Hcopy; [done|]. apply IH. lia.
Qed.

(** Stripping the extension: both literals end in [p], so the last
    character survives. *)
Lemma replace_exe_zip_last s :
  last_char (replace s ".exe.zip" ".zip") = last_char s.
Proof.
  enough (last_char (replace s ".exe.zip" ".zip") = last_char s ∧
          (replace s ".exe.zip" ".zip" = "" ↔ s = "")) as [? _] by done.
  apply (replace_ind ".exe.zip" ".zip"
           (fun s r => last_char r = last_char s ∧ (r = "" ↔ s = ""))); [done|done|..].
  - intros t r [Hl He]. split; [|split; discriminate].
    destruct r as [|x r].
    + rewrite (proj1 He eq_refl). reflexivity.
    + rewrite last_char_app by done. rewrite Hl.
      destruct t as [|y t]; [by destruct He as [_ He]; specialize (He eq_refl)|].
      by rewrite last_char_app.
  - intros c t r _ [Hl He]. split; [|split; discriminate].
    destruct r as [|x r].
    + by rewrite (proj1 He eq_refl).
    + rewrite last_char_cons by done. rewrite Hl.
      destruct t as [|y t]; [by destruct He as [_ He]; specialize (He eq_refl)|].
      symmetry. by apply last_char_cons.
Qed.

(** No character of the tag [-v3] belongs to [.exe.zip], so the tag
    survives the stripping. *)
Lemma replace_exe_zip_tag s :
  contains s "-v3" = true → contains (replace s ".exe.zip" ".zip") "-v3" = true.
Proof.
  enough ((contains s "-v3" = true → contains (replace s ".exe.zip" ".zip") "-v3" = true) ∧
          (startswith s "-v3" = true → startswith (replace s ".exe.zip" ".zip") "-v3" = true) ∧
          (startswith s "v3" = true → startswith (replace s ".exe.zip" ".zip") "v3" = true) ∧
          (startswith s "3" = true → startswith (replace s ".exe.zip" ".zip") "3" = true))
    as [? _] by done.
  apply (replace_ind ".exe.zip" ".zip"
           (fun s r => (contains s "-v3" = true → contains r "-v3" = true) ∧
                       (startswith s "-v3" = true → startswith r "-v3" = true) ∧
                       (startswith s "v3" = true → startswith r "v3" = true) ∧
                       (startswith s "3" = true → startswith r "3" = true)));
    [done|by repeat split|..].
  - intros t r (Hc & _). rewrite !app_cons, !app_nil_l.
    repeat split; try discriminate.
    rewrite !contains_cons. simpl. intros H.
    by rewrite (Hc H).
  - intros c t r _ (Hc & H0 & H1 & H2). rewrite !contains_cons, !startswith_cons.
    repeat split.
    + intros [H|H]%orb_true_iff.
      * apply andb_true_iff in H as [-> H]. by rewrite (H1 H).
      * rewrite (Hc H). apply orb_true_r.
    + intros [-> H]%andb_true_iff. by rewrite (H1 H).
    + intros [-> H]%andb_true_iff. by rewrite (H2 H).
    + intros [-> _]%andb_true_iff. done.
Qed.

(** ** The extension [.exe] *)

(** Joining a string without [.exe] to one without it, when the second
    does not start with a character that could complete an occurrence. *)
Lemma contains_exe_app a d y :
  contains a ".exe" = false → contains (String d y) ".exe" = false →
  Ascii.eqb d "e" = false → Ascii.eqb d "x" = false →
  contains (a +:+ String d y) ".exe" = false.
Proof.
  intros Ha Hy He Hx. induction a as [|c a IH]; [done|].
  rewrite contains_cons in Ha. apply orb_false_iff in Ha as [Hs Ha].
  rewrite app_cons, contains_cons, (IH Ha), orb_false_r. clear IH Ha Hy.
  revert Hs.
  destruct a as [|c1 [|c2 [|c3 a]]]; rewrite ?app_cons, ?app_nil_l, ?startswith_cons,
    ?He, ?Hx; eqb_cases.
Qed.

(** A name without [.exe] followed by [.exe.zip] has exactly one
    occurrence of [.exe.zip], the final one. *)
Lemma replace_exe_zip_strip a :
  contains a ".exe" = false →
  replace (a +:+ ".exe.zip") ".exe.zip" ".zip" = a +:+ ".zip".
Proof.
  induction a as [|c a IH]; intros Ha; [reflexivity|].
  rewrite contains_cons in Ha. apply orb_false_iff in Ha as [Hs Ha].
  rewrite !app_cons, replace_nomatch, (IH Ha); [done|]. clear IH Ha.
  revert Hs.
  destruct a as [|c1 [|c2 [|c3 a]]];
    rewrite ?app_cons, ?app_nil_l, ?startswith_cons; eqb_cases.
Qed.

End StrFacts.

(** * The target resolver *)

Module Resolver.
Import Str StrFacts.

Lemma name_step_piece s pairs : name_step s pairs = s +:+ name_piece pairs.
Proof.
  unfold name_piece, name_step.
  destruct (_ || _); [by rewrite app_nil_l|].
  destruct (String.eqb _ _); [by rewrite app_nil_l|by rewrite app_nil_r].
Qed.

Lemma resolve_loop_name env e s :
  (resolve_loop env e s).2 = s +:+ name_suffix env.
Proof.
  revert e s. induction env as [|pairs rest IH]; intros e s; simpl.
  - by rewrite app_nil_r.
  - by rewrite IH, name_step_piece, app_assoc.
Qed.

(** A variable of the merged environment comes from the target or from
    the inherited environment. *)
Lemma resolve_loop_lookup env (e : gmap string string) s k v :
  (resolve_loop env e s).1 !! k = Some v → (k, v) ∈ env ∨ e !! k = Some v.
Proof.
  revert e s. induction env as [|[k' v'] rest IH]; intros e s; simpl; [auto|].
  intros [H|H]%IH.
  - left. by apply list_elem_of_further.
  - destruct (decide (k' = k)) as [->|Hne].
    + rewrite lookup_insert_eq in H. injection H as ->. left. apply list_elem_of_here.
    + rewrite lookup_insert_ne in H by done. by right.
Qed.

Lemma os_env_resolve environ env :
  os_env (resolve environ env) = (resolve_loop env environ PROJECT_NAME).1.
Proof. unfold resolve. by destruct (resolve_loop _ _ _). Qed.

Lemma name_resolve environ env :
  name (resolve environ env) =
  (PROJECT_NAME +:+ name_suffix env) +:+
  (if is_windows (os_env (resolve environ env)) then ".exe" else "").
Proof.
  rewrite os_env_resolve, <- resolve_loop_name with (e := environ).
  unfold resolve. destruct (resolve_loop _ _ _) as [e s]. simpl.
  destruct (is_windows e); [done|by rewrite app_nil_r].
Qed.

Lemma bin_resolve environ env :
  bin_filename (resolve environ env) =
  if is_windows (os_env (resolve environ env)) then PROJECT_NAME +:+ ".exe"
  else PROJECT_NAME.
Proof. unfold resolve. by destruct (resolve_loop _ _ _). Qed.

Lemma zip_resolve environ env :
  zip_filename (resolve environ env) =
  let z := name (resolve environ env) +:+ ".zip" in
  if endswith z ".exe.zip" then replace z ".exe.zip" ".zip" else z.
Proof. unfold resolve. by destruct (resolve_loop _ _ _). Qed.

(** Without the GOOS=windows pair, and with no such variable inherited,
    the merged environment does not select Windows. *)
Lemma not_windows environ env :
  ("GOOS", "windows") ∉ env → environ !! "GOOS" ≠ Some "windows" →
  is_windows (os_env (resolve environ env)) = false.
Proof.
  intros Henv Hinh. unfold is_windows. apply bool_decide_eq_false.
  rewrite os_env_resolve. intros [H|H]%resolve_loop_lookup; auto.
Qed.

(** Archive names end in [p]. *)
Lemma zip_last environ env :
  last_char (zip_filename (resolve environ env)) = Some "p"%char.
Proof.
  rewrite zip_resolve. cbv zeta.
  destruct (endswith _ _); rewrite ?replace_exe_zip_last; by apply last_char_app.
Qed.

Lemma name_piece_dash pairs :
  name_piece pairs = "" ∨ ∃ r, name_piece pairs = String "-" r.
Proof.
  unfold name_piece, name_step.
  destruct (_ || _); [right; by eexists|].
  destruct (String.eqb _ _); [right; by eexists|by left].
Qed.

Lemma name_suffix_dash env :
  name_suffix env = "" ∨ ∃ r, name_suffix env = String "-" r.
Proof.
  induction env as [|pairs rest IH]; [by left|]. simpl.
  destruct (name_piece_dash pairs) as [->|[r ->]]; [done|].
  right. by eexists.
Qed.

(** The suffix carries the tag of a GOAMD64 pair, whatever its value. *)
Lemma name_suffix_tag env v :
  ("GOAMD64", v) ∈ env → contains (name_suffix env) "-v3" = true.
Proof.
  induction env as [|pairs rest IH]; intros H; [by apply elem_of_nil in H|].
  apply elem_of_cons in H as [<-|H]; cbn [name_suffix].
  - by apply contains_app_l.
  - by apply contains_app_r, IH.
Qed.

(** Values without [.exe] give a suffixed name without it. *)
Lemma name_suffix_no_exe env s :
  Forall (fun pairs : string * string =>
            pairs.1 = "GOOS" ∨ pairs.1 = "GOARCH" → contains pairs.2 ".exe" = false) env →
  contains s ".exe" = false →
  contains (s +:+ name_suffix env) ".exe" = false.
Proof.
  intros Henv. revert s. induction Henv as [|[k v] rest Hv _ IH]; intros s Hs; simpl.
  - by rewrite app_nil_r.
  - rewrite <- app_assoc. apply IH. simpl in Hv.
    unfold name_piece, name_step. simpl.
    destruct (String.eqb_spec k "GOOS") as [->|?];
      [|destruct (String.eqb_spec k "GOARCH") as [->|?]]; simpl.
    + rewrite app_nil_l. apply contains_exe_app; try done.
      rewrite contains_cons. by rewrite Hv by auto.
    + rewrite app_nil_l. apply contains_exe_app; try done.
      rewrite contains_cons. by rewrite Hv by auto.
    + destruct (String.eqb k "GOAMD64"); [|by rewrite app_nil_r].
      by apply contains_exe_app.
Qed.

End Resolver.

(** * File names *)

Section Names.
Import Str StrFacts Resolver.

Example resolve_envs :
  (fun c => (name c, zip_filename c, bin_filename c)) <$> (resolve ∅ <$> envs)
  = [("mosdns-log-linux-amd64-v3", "mosdns-log-linux-amd64-v3.zip", "mosdns-log")].
Proof. vm_compute. reflexivity. Qed.

Example resolve_windows :
  (fun c => (name c, zip_filename c, bin_filename c)) (resolve ∅ windows_amd64)
  = ("mosdns-log-windows-amd64.exe", "mosdns-log-windows-amd64.zip", "mosdns-log.exe").
Proof. vm_compute. reflexivity. Qed.

(** C1, as stated, fails on the configured target: the binary is named
    after the project alone, the archive after the suffixed name. *)
Lemma C1_counterexample :
(("GOOS", "windows") ∉ linux_amd64_v3) ∧
  bin_filename (resolve ∅ linux_amd64_v3) = "mosdns-log" ∧
  removesuffix (zip_filename (resolve ∅ linux_amd64_v3)) ".zip" = "mosdns-log-linux-amd64-v3" ∧
  bin_filename (resolve ∅ linux_amd64_v3)
    ≠ removesuffix (zip_filename (resolve ∅ linux_amd64_v3)) ".zip".
Proof.
  split; [|by vm_compute].
  intros H. repeat (apply elem_of_cons in H as [H|H]; [discriminate|]).
  by apply elem_of_nil in H.
Qed.

(** C1 (amended): for every target without the GOOS=windows pair (and no
    such variable inherited), the binary file name is the bare project
    name; the name [s] is the binary file name followed by what the pairs
    append; the archive file name without [.zip] is that name [s], unless
    [s] ends in [.exe]; and binary and archive name agree exactly when the
    pairs append nothing. *)
Theorem C1_names_without_windows environ env :
  ("GOOS", "windows") ∉ env → environ !! "GOOS" ≠ Some "windows" →
  let c := resolve environ env in
  bin_filename c = PROJECT_NAME ∧
  name c = bin_filename c +:+ name_suffix env ∧
  (endswith (name c) ".exe" = false → removesuffix (zip_filename c) ".zip" = name c) ∧
  (removesuffix (zip_filename c) ".zip" = bin_filename c ↔ name_suffix env = "").
Proof.
  intros Henv Hinh c. subst c.
  pose proof (not_windows _ _ Henv Hinh) as Hw.
  pose proof (name_resolve environ env) as Hn.
  pose proof (zip_resolve environ env) as Hz. cbv zeta in Hz.
  rewrite bin_resolve, Hw. rewrite Hw, app_nil_r in Hn.
  rewrite (endswith_app_r _ ".exe" ".zip") in Hz.
  split; [done|]. split; [done|]. split.
  - intros He. rewrite He in Hz. rewrite Hz. by apply removesuffix_app.
  - rewrite Hn in Hz. split.
    + intros Hrm.
      destruct (name_suffix_dash env) as [|[r Hr]]; [done|exfalso].
      rewrite Hr in Hz.
      assert (∃ r', zip_filename (resolve environ env) = "mosdns-log-" +:+ r')
        as [r' Hpre].
      { rewrite Hz. destruct (endswith _ _); [|by eexists].
        unfold PROJECT_NAME. rewrite !app_cons, !app_nil_l.
        rewrite !replace_nomatch by done. by eexists. }
      destruct (removesuffix_inv (zip_filename (resolve environ env)) ".zip") as [E|E];
        rewrite Hrm, Hpre in E; discriminate E.
    + intros Hr. rewrite Hr, app_nil_r in Hz. rewrite Hz. reflexivity.
Qed.

Lemma C1_names_without_windows_witness :
(("GOOS", "windows") ∉ linux_amd64_v3) ∧
  (∅ : gmap string string) !! "GOOS" ≠ Some "windows" ∧
  bin_filename (resolve ∅ linux_amd64_v3) = PROJECT_NAME ∧
  name (resolve ∅ linux_amd64_v3)
    = bin_filename (resolve ∅ linux_amd64_v3) +:+ name_suffix linux_amd64_v3 ∧
  (endswith (name (resolve ∅ linux_amd64_v3)) ".exe" = false →
   removesuffix (zip_filename (resolve ∅ linux_amd64_v3)) ".zip"
     = name (resolve ∅ linux_amd64_v3)) ∧
  (removesuffix (zip_filename (resolve ∅ linux_amd64_v3)) ".zip"
     = bin_filename (resolve ∅ linux_amd64_v3) ↔ name_suffix linux_amd64_v3 = "").
Proof.
  assert (H1 : ("GOOS", "windows") ∉ linux_amd64_v3).
  { intros H. repeat (apply elem_of_cons in H as [H|H]; [discriminate|]).
    by apply elem_of_nil in H. }
  assert (H2 : (∅ : gmap string string) !! "GOOS" ≠ Some "windows")
    by (by rewrite lookup_empty).
  split; [exact H1|]. split; [exact H2|].
  exact (C1_names_without_windows ∅ linux_amd64_v3 H1 H2).
Defined.

(** C2, as stated, fails when a value of the target carries [.exe]
    itself, since only the extension appended last is stripped; and when a
    later GOOS pair overrides GOOS=windows, since the merged environment
    decides. *)
Lemma C2_counterexample :
  (("GOOS", "windows") ∈ windows_odd ∧
   zip_filename (resolve ∅ windows_odd) = "mosdns-log-windows-a.exe.zip" ∧
   contains (zip_filename (resolve ∅ windows_odd)) ".exe" = true) ∧
  (("GOOS", "windows") ∈ windows_then_linux ∧
   bin_filename (resolve ∅ windows_then_linux) = "mosdns-log" ∧
   endswith (bin_filename (resolve ∅ windows_then_linux)) ".exe" = false).
Proof. split; (split; [apply list_elem_of_here|by vm_compute]). Qed.

(** C2 (amended): for every target whose merged environment has
    GOOS=windows and whose GOOS and GOARCH values do not contain [.exe],
    the binary file name ends in [.exe] and the archive file name has no
    occurrence of [.exe]. *)
Theorem C2_names_with_windows environ env :
  let c := resolve environ env in
  os_env c !! "GOOS" = Some "windows" →
  Forall (fun pairs : string * string =>
            pairs.1 = "GOOS" ∨ pairs.1 = "GOARCH" → contains pairs.2 ".exe" = false) env →
  endswith (bin_filename c) ".exe" = true ∧
  contains (zip_filename c) ".exe" = false.
Proof.
  intros c Hgoos Henv. subst c.
  assert (Hw : is_windows (os_env (resolve environ env)) = true)
    by (by apply bool_decide_eq_true).
  split.
  - by rewrite bin_resolve, Hw.
  - pose proof (name_suffix_no_exe env PROJECT_NAME Henv eq_refl) as Hstem.
    rewrite zip_resolve, name_resolve, Hw. cbv zeta.
    rewrite app_assoc. change (".exe" +:+ ".zip") with ".exe.zip".
    rewrite endswith_app, replace_exe_zip_strip by done.
    by apply contains_exe_app.
Qed.

Lemma C2_names_with_windows_witness :
  os_env (resolve ∅ windows_amd64) !! "GOOS" = Some "windows" ∧
  Forall (fun pairs : string * string =>
            pairs.1 = "GOOS" ∨ pairs.1 = "GOARCH" → contains pairs.2 ".exe" = false)
         windows_amd64 ∧
  endswith (bin_filename (resolve ∅ windows_amd64)) ".exe" = true ∧
  contains (zip_filename (resolve ∅ windows_amd64)) ".exe" = false.
Proof.
  assert (H1 : os_env (resolve ∅ windows_amd64) !! "GOOS" = Some "windows")
    by (vm_compute; reflexivity).
  assert (H2 : Forall (fun pairs : string * string =>
                 pairs.1 = "GOOS" ∨ pairs.1 = "GOARCH" → contains pairs.2 ".exe" = false)
               windows_amd64)
    by (repeat constructor).
  split; [exact H1|]. split; [exact H2|].
  exact (C2_names_with_windows ∅ windows_amd64 H1 H2).
Defined.

(** C5: for every target with a GOAMD64 pair, whatever its value, the
    name built by the loop and the archive file name derived from it
    contain the fixed tag [-v3]. *)
Theorem C5_microarch_tag environ env v :
  ("GOAMD64", v) ∈ env →
  contains (name (resolve environ env)) "-v3" = true ∧
  contains (zip_filename (resolve environ env)) "-v3" = true.
Proof.
  intros Hin.
  assert (Hn : contains (name (resolve environ env)) "-v3" = true).
  { rewrite name_resolve. apply contains_app_l, contains_app_r.
    by apply name_suffix_tag with v. }
  split; [done|].
  rewrite zip_resolve. cbv zeta.
  destruct (endswith _ _); [apply replace_exe_zip_tag|]; by apply contains_app_l.
Qed.

Lemma C5_microarch_tag_witness :
  ("GOAMD64", "v4") ∈ [("GOOS", "linux"); ("GOAMD64", "v4")] ∧
  contains (name (resolve ∅ [("GOOS", "linux"); ("GOAMD64", "v4")])) "-v3" = true ∧
  contains (zip_filename (resolve ∅ [("GOOS", "linux"); ("GOAMD64", "v4")])) "-v3" = true.
Proof.
  assert (H : ("GOAMD64", "v4") ∈ [("GOOS", "linux"); ("GOAMD64", "v4")])
    by (apply list_elem_of_further, list_elem_of_here).
  split; [exact H|].
  exact (C5_microarch_tag ∅ [("GOOS", "linux"); ("GOAMD64", "v4")] "v4" H).
Defined.

(** The binary file name itself never carries the tag. *)
Lemma bin_filename_no_tag environ env :
  contains (bin_filename (resolve environ env)) "-v3" = false.
Proof. rewrite bin_resolve. by destruct (is_windows _). Qed.

End Names.

(** * Running the script *)

Module Runs.
Import Str StrFacts Resolver.

Lemma bind_run {A B} (m : M A) (f : A → M B) w :
  (m ≫= f) w =
  match m w with
  | (w', inl e) => (w', inl e)
  | (w', inr a) => f a w'
  end.
Proof. reflexivity. Qed.

(** ** The archive path differs from every path read *)

Lemma zip_ne environ env p :
  last_char p ≠ Some "p"%char → p ≠ zip_filename (resolve environ env).
Proof. intros Hp E. apply Hp. rewrite E. apply zip_last. Qed.

Lemma resolve_names_ok environ env : names_ok (resolve environ env).
Proof.
  repeat split; try (by apply zip_ne).
  rewrite bin_resolve. destruct (is_windows _); by apply zip_ne.
Qed.

(** ** Loops *)

Lemma for_each_app {A} (l1 l2 : list A) (f : A → M unit) w :
  for_each (l1 ++ l2) f w = (for_each l1 f ≫= λ _, for_each l2 f) w.
Proof.
  revert w. induction l1 as [|x l1 IH]; intros w; [reflexivity|].
  cbn [for_each app]. rewrite !bind_run.
  destruct (f x w) as [w' [e|[]]]; [reflexivity|]. rewrite IH. by rewrite bind_run.
Qed.

Lemma for_each_map {A B} (g : A → B) (l : list A) (f : B → M unit) w :
  for_each (List.map g l) f w = for_each l (λ x, f (g x)) w.
Proof.
  revert w. induction l as [|x l IH]; intros w; [reflexivity|].
  cbn [for_each List.map]. rewrite !bind_run.
  destruct (f (g x) w) as [w' [e|[]]]; [reflexivity|]. apply IH.
Qed.

Lemma for_each_ext {A} (l : list A) (f g : A → M unit) w :
  (∀ x w, f x w = g x w) → for_each l f w = for_each l g w.
Proof.
  intros Hfg. revert w. induction l as [|x l IH]; intros w; [reflexivity|].
  cbn [for_each]. rewrite !bind_run, Hfg.
  destruct (g x w) as [w' [e|[]]]; [reflexivity|]. apply IH.
Qed.

Lemma add_web_items zf tree w :
  add_web zf tree w = for_each (web_items tree) (zf_add_item zf) w.
Proof.
  revert w. induction tree as [|[[root dirs] files] tree IH]; intros w; [reflexivity|].
  unfold add_web, web_items. cbn [for_each List.flat_map].
  rewrite for_each_app, !bind_run, for_each_map.
  rewrite (for_each_ext files _
             (λ f : string * node, zf_add_item zf
                (Some f.2, path_join root f.1, relpath_up (path_join root f.1))))
    by (by intros [file st] w0).
  cbn [fst snd].
  destruct (for_each files _ w) as [w' [e|[]]]; [reflexivity|]. apply IH.
Qed.

(** ** Writes into the open archive *)

Lemma written_run zf items (m : gmap string node) es lg :
  for_each items (zf_add_item zf) (mkWorld (<[zf := Archive es]> m) lg) =
  (mkWorld (<[zf := Archive (es ++ (written items).1)]> m) lg,
   match (written items).2 with Some e => inl e | None => inr tt end).
Proof.
  revert es. induction items as [|it items IH]; intros es.
  - cbn [for_each written fst snd]. by rewrite List.app_nil_r.
  - cbn [for_each written]. rewrite bind_run. unfold zf_add_item at 1, zf_add.
    destruct (entry_of _ _ _) as [e|n]; cbn [fst snd fs log].
    + by rewrite List.app_nil_r.
    + unfold entries_at. rewrite lookup_insert_eq, insert_insert_eq, IH.
      by rewrite <- List.app_assoc.
Qed.

Lemma zf_write_run zf src arc (m : gmap string node) es lg :
  src ≠ zf →
  zf_write zf src arc (mkWorld (<[zf := Archive es]> m) lg) =
  match entry_of (m !! src) src arc with
  | inl e => (mkWorld (<[zf := Archive es]> m) lg, inl e)
  | inr n => (mkWorld (<[zf := Archive (es ++ [n])]> m) lg, inr tt)
  end.
Proof.
  intros Hne. unfold zf_write, zf_add. cbn [fs log].
  rewrite lookup_insert_ne by done.
  destruct (entry_of _ _ _); [reflexivity|].
  unfold entries_at. by rewrite lookup_insert_eq, insert_insert_eq.
Qed.

Lemma path_exists_run zf p (m : gmap string node) es lg :
  p ≠ zf →
  path_exists p (mkWorld (<[zf := Archive es]> m) lg) =
  (mkWorld (<[zf := Archive es]> m) lg, inr (bool_decide (is_Some (m !! p)))).
Proof. intros Hne. unfold path_exists. cbn [fs]. by rewrite lookup_insert_ne. Qed.

Lemma walk_run zf p (m : gmap string node) es lg :
  p ≠ zf →
  walk p (mkWorld (<[zf := Archive es]> m) lg) =
  (mkWorld (<[zf := Archive es]> m) lg,
   inr (match m !! p with Some n => os_walk p n | None => [] end)).
Proof. intros Hne. unfold walk. cbn [fs]. by rewrite lookup_insert_ne. Qed.

(** ** The [with] block *)

Section Block.
Variable zf : string.
Variable m : gmap string node.

Lemma runs_write src arc T items web :
  src ≠ zf → runs_as zf m T items web →
  runs_as zf m (zf_write zf src arc ≫= λ _, T) ((m !! src, src, arc) :: items) web.
Proof.
  intros Hne HT es lg. rewrite bind_run, zf_write_run by done.
  cbn [written fst snd].
  destruct (entry_of _ _ _) as [e|n]; cbn [fst snd].
  - by rewrite !List.app_nil_r.
  - rewrite HT. by rewrite <- List.app_assoc.
Qed.

Lemma runs_cond_write src arc T items web :
  src ≠ zf → runs_as zf m T items web →
  runs_as zf m (path_exists src ≫= λ b : bool,
             (if b then zf_write zf src arc else mret tt) ≫= λ _, T)
          ((if bool_decide (is_Some (m !! src)) then [(m !! src, src, arc)] else [])
           ++ items) web.
Proof.
  intros Hne HT es lg. rewrite bind_run, path_exists_run by done.
  destruct (bool_decide _).
  - by apply runs_write.
  - apply HT.
Qed.

Lemma runs_web top :
  top ≠ zf →
  runs_as zf m (path_exists top ≫= λ b : bool,
             if b then walk top ≫= λ tree, add_web zf tree
             else logger WARNING MsgWebMissing)
          (match m !! top with Some n => web_items (os_walk top n) | None => [] end)
          (m !! top).
Proof.
  intros Hne es lg. rewrite bind_run, path_exists_run by done.
  destruct (m !! top) as [n|] eqn:E.
  - rewrite bool_decide_eq_true_2 by eauto.
    rewrite bind_run, walk_run, E by done.
    rewrite add_web_items, written_run.
    unfold web_warning. destruct (written _).2; by rewrite List.app_nil_r.
  - rewrite bool_decide_eq_false_2 by (by intros [??]).
    cbn [written fst snd web_warning]. by rewrite List.app_nil_r.
Qed.

End Block.

Lemma zip_body_run c (m : gmap string node) es lg :
  names_ok c →
  zip_body c (mkWorld (<[zip_filename c := Archive es]> m) lg) =
  let r := written (manifest c m) in
  (mkWorld (<[zip_filename c := Archive (es ++ r.1)]> m)
           (lg ++ web_warning r.2 (m !! WEB_DIR)),
   match r.2 with Some e => inl e | None => inr tt end).
Proof.
  intros (Hb & Hc & Hr & Hw). unfold zip_body, manifest. cbv zeta.
  apply runs_write; [done|].
  apply runs_cond_write; [done|].
  apply runs_cond_write; [done|].
  by apply runs_web.
Qed.

(** The [with] block, on any file system. *)
Lemma zip_step_run c (m : gmap string node) lg :
  names_ok c →
  zip_step c (mkWorld m lg) =
  match m !! zip_filename c with
  | Some (Dir _) => (mkWorld m lg, inl (IsADirectoryError (zip_filename c)))
  | _ =>
      let r := written (manifest c m) in
      (mkWorld (<[zip_filename c := Archive r.1]> m)
               (lg ++ web_warning r.2 (m !! WEB_DIR)),
       match r.2 with Some e => inl e | None => inr tt end)
  end.
Proof.
  intros Hok. unfold zip_step. rewrite bind_run. unfold ZipFile_open. cbn [fs log].
  destruct (m !! zip_filename c) as [[| | |]|]; try reflexivity;
    by rewrite zip_body_run.
Qed.

(** ** Clean-up and the handlers *)

Lemma cleanup_run c w :
  cleanup_step c w =
  match fs w !! bin_filename c with
  | None => (w, inr tt)
  | Some (Dir _) => (w, inl (IsADirectoryError (bin_filename c)))
  | Some _ => (mkWorld (delete (bin_filename c) (fs w)) (log w), inr tt)
  end.
Proof.
  unfold cleanup_step. rewrite bind_run. unfold path_exists, os_remove.
  destruct (fs w !! bin_filename c) as [n|] eqn:E.
  - rewrite bool_decide_eq_true_2 by eauto. by rewrite E.
  - by rewrite bool_decide_eq_false_2 by (by intros [??]).
Qed.

Lemma on_error_run e w :
  on_error e w = (mkWorld (fs w) (log w ++ [error_record e]), inr tt).
Proof. by destruct e. Qed.

(** Lines 79-113 log and never raise; what they leave depends on the file
    system alone. *)
Lemma package_run c (m : gmap string node) lg :
  names_ok c →
  try_except (package c) on_error (mkWorld m lg) =
  (mkWorld (packaged c m).1 (lg ++ (packaged c m).2), inr tt).
Proof.
  intros Hok. unfold try_except, package, packaged.
  rewrite bind_run, zip_step_run by done.
  assert (Hbin : ∀ es, <[zip_filename c := Archive es]> m !! bin_filename c
                        = m !! bin_filename c).
  { intros es. apply lookup_insert_ne. intros E. by destruct Hok as [Hb _]. }
  destruct (m !! zip_filename c) as [[| | |]|]; cbv zeta.
  3: by rewrite on_error_run.
  all: destruct (written (manifest c m)).2 as [e|];
    [ rewrite on_error_run; cbn [fs log fst snd web_warning];
      by rewrite List.app_nil_r
    | rewrite bind_run, cleanup_run; cbn [fs log]; rewrite Hbin;
      destruct (m !! bin_filename c) as [[| | |]|]; cbn [fst snd];
      rewrite ?on_error_run; unfold logger; cbn [fs log];
      by rewrite <- ?List.app_assoc ].
Qed.

Lemma zip_result_run c (m : gmap string node) :
  names_ok c →
  zip_result c m =
  match m !! zip_filename c with
  | Some (Dir _) => inl (IsADirectoryError (zip_filename c))
  | _ => match (written (manifest c m)).2 with Some e => inl e | None => inr tt end
  end.
Proof.
  intros Hok. unfold zip_result. rewrite zip_step_run by done.
  by destruct (m !! zip_filename c) as [[| | |]|].
Qed.

(** ** What a sequence of writes stores *)

Lemma entry_of_name st src arc n :
  entry_of st src arc = inr n → n = arc ∨ n = arc +:+ "/".
Proof. destruct st as [[[]| | |]|]; intros [=]; auto. Qed.

Lemma entry_of_exn st src arc e :
  entry_of st src arc = inl e → error_record e = (ERROR, MsgUnknownError e).
Proof. destruct st as [[[]| | |]|]; by intros [= <-]. Qed.

Lemma written_in items n :
  n ∈ (written items).1 →
  ∃ it, it ∈ items ∧ entry_of it.1.1 it.1.2 it.2 = inr n.
Proof.
  induction items as [|it items IH]; cbn [written].
  - by intros ?%elem_of_nil.
  - destruct (entry_of _ _ _) as [e|n'] eqn:E; cbn [fst].
    + by intros ?%elem_of_nil.
    + intros [->|H]%elem_of_cons.
      * exists it. split; [apply list_elem_of_here|done].
      * destruct (IH H) as (it' & ? & ?). exists it'.
        split; [by apply list_elem_of_further|done].
Qed.

Lemma written_all items it :
  (written items).2 = None → it ∈ items →
  ∃ n, entry_of it.1.1 it.1.2 it.2 = inr n ∧ n ∈ (written items).1.
Proof.
  induction items as [|it' items IH]; cbn [written].
  - by intros _ ?%elem_of_nil.
  - destruct (entry_of it'.1.1 _ _) as [e|n'] eqn:E; cbn [fst snd]; [done|].
    intros Hr [->|H]%elem_of_cons.
    + exists n'. split; [done|apply list_elem_of_here].
    + destruct (IH Hr H) as (n & ? & ?). exists n.
      split; [done|by apply list_elem_of_further].
Qed.

Lemma written_exn items e :
  (written items).2 = Some e → error_record e = (ERROR, MsgUnknownError e).
Proof.
  induction items as [|it items IH]; cbn [written]; [done|].
  destruct (entry_of _ _ _) as [e'|n'] eqn:E; cbn [snd]; [|done].
  intros [= <-]. by apply entry_of_exn in E.
Qed.

(** ** The walk of a directory tree *)

Lemma path_join_assoc top d r :
  path_join (path_join top d) r = path_join top (path_join d r).
Proof. unfold path_join. by rewrite !app_assoc. Qed.

(** Every directory the walk reports is [top] or lies below it, and the
    files it reports are not directories. *)
Lemma os_walk_spec n : ∀ top root dirs files,
  (root, dirs, files) ∈ os_walk top n →
  (root = top ∨ ∃ r, root = path_join top r) ∧
  ∀ f, f ∈ files → is_dir f.2 = false.
Proof.
  induction n as [r|es|ch IH|] using node_tree_ind; intros top root dirs files;
    cbn [os_walk]; try (by intros ?%elem_of_nil).
  intros [[= -> -> ->]|H]%elem_of_cons.
  - split; [by left|]. intros f Hf%list_elem_of_In.
    apply filter_In in Hf as [_ Hf]. by apply negb_true_iff in Hf.
  - apply list_elem_of_In, in_flat_map in H as ([d_name d_node] & Hd & H).
    apply list_elem_of_In in Hd.
    rewrite Forall_forall in IH. specialize (IH _ Hd). cbn [snd] in IH.
    destruct (is_dir d_node); [|by apply in_nil in H].
    apply list_elem_of_In, IH in H as [[->|[r ->]] Hfiles].
    + split; [right; by eexists|done].
    + split; [right; eexists; by rewrite path_join_assoc|done].
Qed.

(** Below the asset directory, the archive path is the path without the
    leading [../]. *)
Lemma relpath_up_web root file :
  root = WEB_DIR ∨ (∃ r, root = path_join WEB_DIR r) →
  path_join root file = "../" +:+ relpath_up (path_join root file) ∧
  startswith (relpath_up (path_join root file)) "web/" = true.
Proof. by intros [->|[r ->]]. Qed.

Lemma web_items_in top n it :
  it ∈ web_items (os_walk top n) →
  ∃ root dirs files f,
    (root, dirs, files) ∈ os_walk top n ∧ f ∈ files ∧
    it = (Some f.2, path_join root f.1, relpath_up (path_join root f.1)).
Proof.
  unfold web_items. intros H%list_elem_of_In.
  apply in_flat_map in H as ([[root dirs] files] & Ht & H).
  apply in_map_iff in H as (f & <- & Hf).
  exists root, dirs, files, f. by rewrite !list_elem_of_In.
Qed.

Lemma web_items_of top n root dirs files f :
  (root, dirs, files) ∈ os_walk top n → f ∈ files →
  (Some f.2, path_join root f.1, relpath_up (path_join root f.1))
    ∈ web_items (os_walk top n).
Proof.
  intros Ht Hf. unfold web_items. apply list_elem_of_In, in_flat_map.
  exists (root, dirs, files). split; [by apply list_elem_of_In|].
  apply in_map_iff. exists f. split; [done|by apply list_elem_of_In].
Qed.

(** ** The build phase and a whole target *)

Section Target.
Variable shell : Shell.
Variable upx : bool.
Variable environ : gmap string string.

Lemma process_target_run env w :
  process_target shell upx environ env w =
  try_except (target_body shell upx environ (resolve environ env)) on_error
    (mkWorld (fs w) (log w ++ [building (resolve environ env)])).
Proof. reflexivity. Qed.

Lemma build_fail_run c w code fs1 :
  shell (build_cmd (bin_filename c)) (os_env c) (fs w) = (Exited code, fs1) →
  code ≠ 0%Z →
  target_body shell upx environ c w =
  (mkWorld fs1 (log w), inl (CalledProcessError (build_cmd (bin_filename c)) code)).
Proof.
  intros Hsh Hcode. unfold target_body, build_phase, build_step.
  rewrite !bind_run. unfold check_call. rewrite Hsh.
  by destruct code.
Qed.

Lemma build_ok_run c w :
  build_ok shell c (fs w) →
  build_phase shell upx environ c w =
  (mkWorld (built_fs shell upx environ c (fs w))
           (log w ++ upx_log shell upx environ c (fs w)), inr tt).
Proof.
  unfold build_ok, build_phase, build_step, built_fs, upx_log.
  rewrite bind_run. unfold check_call at 1.
  destruct (shell _ _ (fs w)) as [r fs1]. cbn [fst snd]. intros ->.
  unfold upx_step. destruct upx.
  - unfold try_except. rewrite bind_run. unfold logger at 1, check_call.
    cbn [fs log]. destruct (shell _ environ fs1) as [r2 fs2]. cbn [fst snd].
    destruct r2 as [[|?|?]|]; unfold logger; cbn [fs log];
      by rewrite <- ?List.app_assoc.
  - unfold mret, M_ret. by rewrite List.app_nil_r.
Qed.

(** A target whose build succeeds. *)
Lemma process_target_built env w :
  let c := resolve environ env in
  let m1 := built_fs shell upx environ c (fs w) in
  build_ok shell c (fs w) →
  process_target shell upx environ env w =
  (mkWorld (packaged c m1).1
           (log w ++ [building c] ++ upx_log shell upx environ c (fs w) ++
            (packaged c m1).2), inr tt).
Proof.
  intros c m1 Hok. rewrite process_target_run. fold c.
  unfold try_except, target_body. rewrite bind_run, build_ok_run by done.
  cbn [fs log]. fold m1.
  pose proof (package_run c m1
                ((log w ++ [building c]) ++ upx_log shell upx environ c (fs w))
                (resolve_names_ok environ env)) as Hp.
  unfold try_except in Hp. rewrite Hp. by rewrite <- !List.app_assoc.
Qed.

(** No exception leaves a target. *)
Lemma process_target_returns env w :
  (process_target shell upx environ env w).2 = inr tt.
Proof.
  rewrite process_target_run. unfold try_except.
  destruct (target_body _ _ _ _ _) as [w' [e|[]]]; [|done].
  by rewrite on_error_run.
Qed.

(** No exception leaves the script. *)
Lemma go_build_returns targets w :
  (go_build shell upx environ targets w).2 = inr tt.
Proof.
  assert (H : ∀ w1, (for_each targets (process_target shell upx environ) w1).2 = inr tt).
  { induction targets as [|env rest IH]; intros w1; [done|].
    cbn [for_each]. rewrite bind_run.
    pose proof (process_target_returns env w1) as Hp.
    destruct (process_target _ _ _ env w1) as [w2 [e|[]]]; [done|apply IH]. }
  unfold go_build. rewrite bind_run. unfold logger at 1.
  rewrite bind_run. unfold path_exists. cbn [fs log].
  destruct (bool_decide _); rewrite bind_run; apply H.
Qed.

End Target.

(** ** What packaging leaves *)

Lemma packaged_zip c (m : gmap string node) :
  names_ok c → (∀ l, m !! zip_filename c ≠ Some (Dir l)) →
  (packaged c m).1 !! zip_filename c = Some (Archive (written (manifest c m)).1).
Proof.
  intros (Hb & _) Hz. unfold packaged.
  destruct (m !! zip_filename c) as [[| |l|]|]; try (by destruct (Hz l));
    destruct (written (manifest c m)).2;
    try destruct (m !! bin_filename c) as [[| | |]|]; cbn [fst];
    by rewrite ?lookup_delete_ne, lookup_insert_eq.
Qed.

Lemma written_bin c (m : gmap string node) :
  (written (manifest c m)).2 = None → is_Some (m !! bin_filename c).
Proof.
  unfold manifest. cbn [app written].
  destruct (m !! bin_filename c); [eauto|done].
Qed.

Lemma packaged_success c (m : gmap string node) :
  names_ok c → zip_result c m = inr tt → (∀ l, m !! bin_filename c ≠ Some (Dir l)) →
  packaged c m =
  (delete (bin_filename c) (<[zip_filename c := Archive (written (manifest c m)).1]> m),
   web_warning None (m !! WEB_DIR) ++ [(INFO, MsgSuccess (zip_filename c))]).
Proof.
  intros Hok Hz Hb. rewrite zip_result_run in Hz by done. unfold packaged.
  destruct (m !! zip_filename c) as [[| | |]|]; try done;
    destruct (written (manifest c m)).2 eqn:Hr; try done;
    destruct (written_bin _ _ Hr) as [n Hn]; rewrite Hn;
    destruct n as [| |l|]; try done; by destruct (Hb l).
Qed.

Lemma packaged_exn c (m : gmap string node) e :
  names_ok c → zip_result c m = inl e →
  (packaged c m).1 !! bin_filename c = m !! bin_filename c ∧
  (packaged c m).2 = [(ERROR, MsgUnknownError e)].
Proof.
  intros Hok Hz. rewrite zip_result_run in Hz by done. unfold packaged.
  destruct Hok as (Hb & _).
  destruct (m !! zip_filename c) as [[| | |]|];
    try (injection Hz as <-; by split);
    destruct (written (manifest c m)).2 eqn:Hr; try done;
    injection Hz as <-; cbn [fst snd];
    (split; [by apply lookup_insert_ne|]); by rewrite (written_exn _ _ Hr).
Qed.

(** The names an archive can hold. *)
Lemma manifest_entries c (m : gmap string node) n :
  n ∈ (written (manifest c m)).1 →
  n = bin_filename c ∨ n = bin_filename c +:+ "/" ∨
  (is_Some (m !! CONFIG_FILE) ∧ (n = "config.yaml" ∨ n = "config.yaml/")) ∨
  (n = "README.md" ∨ n = "README.md/") ∨
  (is_Some (m !! WEB_DIR) ∧ startswith n "web/" = true).
Proof.
  intros (it & Hit & He)%written_in. unfold manifest in Hit.
  rewrite !elem_of_app in Hit. destruct Hit as [Hit|[Hit|[Hit|Hit]]].
  - apply list_elem_of_singleton in Hit as ->.
    apply entry_of_name in He as [->| ->]; cbn [fst snd]; auto 10.
  - destruct (bool_decide_reflect (is_Some (m !! CONFIG_FILE))) as [Hc|_];
      [|by apply elem_of_nil in Hit].
    apply list_elem_of_singleton in Hit as ->.
    apply entry_of_name in He as [->| ->]; cbn [fst snd]; auto 10.
  - destruct (bool_decide (is_Some (m !! README_FILE)));
      [|by apply elem_of_nil in Hit].
    apply list_elem_of_singleton in Hit as ->.
    apply entry_of_name in He as [->| ->]; cbn [fst snd]; auto 10.
  - destruct (m !! WEB_DIR) as [web|] eqn:Hweb; [|by apply elem_of_nil in Hit].
    apply web_items_in in Hit as (root & dirs & files & f & Ht & Hf & ->).
    apply os_walk_spec in Ht as [Hroot Hfiles]. specialize (Hfiles _ Hf).
    cbn [fst snd] in He. do 4 right. split; [eauto|].
    destruct (relpath_up_web root f.1 Hroot) as [_ Hs].
    destruct f.2 as [[]| | |]; try done; by injection He as <-.
Qed.

End Runs.

(** * Packaging: the claims *)

Section Packaging.
Import Str StrFacts Resolver Runs.

(** The three end-to-end scenarios, on the configured target list. *)
Example scenario_A :
  go_build toolchain_ok false ∅ envs full_world =
  (mkWorld
     (<[CONFIG_FILE := File true]>
        (<[README_FILE := File true]>
           (<[WEB_DIR := Dir [("index.html", File true);
                              ("css", Dir [("style.css", File true)])]]>
              (<["mosdns-log-linux-amd64-v3.zip" :=
                   Archive ["mosdns-log"; "config.yaml"; "README.md";
                            "web/index.html"; "web/css/style.css"]]> ∅))))
     [(INFO, MsgStart);
      (INFO, MsgBuilding "mosdns-log-linux-amd64-v3.zip" (Some "linux") (Some "amd64"));
      (INFO, MsgSuccess "mosdns-log-linux-amd64-v3.zip")],
   inr tt).
Proof. vm_compute. reflexivity. Qed.

Example scenario_B :
  go_build toolchain_broken false ∅ envs full_world =
  (mkWorld full_tree
     [(INFO, MsgStart);
      (INFO, MsgBuilding "mosdns-log-linux-amd64-v3.zip" (Some "linux") (Some "amd64"));
      (ERROR, MsgBuildFailed
                (CalledProcessError (build_cmd "mosdns-log") 2))],
   inr tt).
Proof. vm_compute. reflexivity. Qed.

Example scenario_C :
  fs (go_build toolchain_ok true ∅ envs full_world).1
    = fs (go_build toolchain_ok false ∅ envs full_world).1 ∧
  log (go_build toolchain_ok true ∅ envs full_world).1 =
    [(INFO, MsgStart);
     (INFO, MsgBuilding "mosdns-log-linux-amd64-v3.zip" (Some "linux") (Some "amd64"));
     (INFO, MsgCompressing);
     (ERROR, MsgUpxFailed);
     (INFO, MsgSuccess "mosdns-log-linux-amd64-v3.zip")].
Proof. split; vm_compute; reflexivity. Qed.

(** C3: when the toolchain exits with a non-zero status, the target ends
    with the file system exactly as the toolchain left it (the script
    writes no archive), the failure is logged, no exception escapes, and
    the loop goes on with the remaining targets. *)
Theorem C3_build_failure_isolated (shell : Shell) (upx : bool)
    (environ : gmap string string) env rest w code fs1 :
  let c := resolve environ env in
  shell (build_cmd (bin_filename c)) (os_env c) (fs w) = (Exited code, fs1) →
  code ≠ 0%Z →
  let w' :=
    mkWorld fs1
      (log w ++ [building c;
                 (ERROR, MsgBuildFailed
                           (CalledProcessError (build_cmd (bin_filename c)) code))]) in
  process_target shell upx environ env w = (w', inr tt) ∧
  for_each (env :: rest) (process_target shell upx environ) w =
  for_each rest (process_target shell upx environ) w'.
Proof.
  intros c Hsh Hcode w'.
  assert (Hrun : process_target shell upx environ env w = (w', inr tt)).
  { rewrite process_target_run. unfold try_except. fold c.
    rewrite (build_fail_run shell upx environ c _ code fs1) by done.
    rewrite on_error_run. cbn [fs log error_record]. unfold w'.
    by rewrite <- List.app_assoc. }
  split; [done|]. cbn [for_each]. by rewrite bind_run, Hrun.
Qed.

Lemma C3_build_failure_isolated_witness :
  toolchain_broken (build_cmd (bin_filename sample_cfg)) (os_env sample_cfg)
    (fs full_world) = (Exited 2, full_tree) ∧
  2%Z ≠ 0%Z ∧
  process_target toolchain_broken true ∅ linux_amd64_v3 full_world =
    (mkWorld full_tree
       (log full_world ++
        [building sample_cfg;
         (ERROR, MsgBuildFailed
                   (CalledProcessError (build_cmd (bin_filename sample_cfg)) 2))]),
     inr tt) ∧
  for_each (linux_amd64_v3 :: [windows_amd64])
    (process_target toolchain_broken true ∅) full_world =
  for_each [windows_amd64] (process_target toolchain_broken true ∅)
    (mkWorld full_tree
       (log full_world ++
        [building sample_cfg;
         (ERROR, MsgBuildFailed
                   (CalledProcessError (build_cmd (bin_filename sample_cfg)) 2))])).
Proof.
  assert (H1 : toolchain_broken (build_cmd (bin_filename sample_cfg))
                 (os_env sample_cfg) (fs full_world) = (Exited 2, full_tree))
    by reflexivity.
  assert (H2 : 2%Z ≠ 0%Z) by lia.
  split; [exact H1|]. split; [exact H2|].
  exact (C3_build_failure_isolated toolchain_broken true ∅ linux_amd64_v3
           [windows_amd64] full_world 2 full_tree H1 H2).
Defined.







(** C9: when the archive was written without an exception, the binary is
    removed afterwards (unless a directory stands at its path), the
    archive stays, and every other path holds what it held after the
    build. *)
Theorem C9_binary_removed (shell : Shell) (upx : bool)
    (environ : gmap string string) env w :
  let c := resolve environ env in
  let m1 := built_fs shell upx environ c (fs w) in
  build_ok shell c (fs w) →
  zip_result c m1 = inr tt →
  (∀ l, m1 !! bin_filename c ≠ Some (Dir l)) →
  ∃ w' es,
    process_target shell upx environ env w = (w', inr tt) ∧
    is_Some (m1 !! bin_filename c) ∧
    fs w' !! bin_filename c = None ∧
    fs w' !! zip_filename c = Some (Archive es) ∧
    ∀ p, p ≠ bin_filename c → p ≠ zip_filename c → fs w' !! p = m1 !! p.
Proof.
  intros c m1 Hok Hres Hbin.
  pose proof (resolve_names_ok environ env) as Hn. fold c in Hn.
  eexists _, _. split; [by apply process_target_built|]. cbn [fs]. fold c m1.
  rewrite packaged_success by done. cbn [fst]. pose proof (proj1 Hn) as Hb.
  split.
  { apply written_bin. rewrite zip_result_run in Hres by done.
    destruct (m1 !! zip_filename c) as [[| | |]|]; try done;
      by destruct (written (manifest c m1)).2. }
  split; [apply lookup_delete_eq|]. split.
  - rewrite lookup_delete_ne by done. apply lookup_insert_eq.
  - intros p Hp1 Hp2. rewrite lookup_delete_ne by done.
    by rewrite lookup_insert_ne.
Qed.

Lemma C9_binary_removed_witness :
  build_ok toolchain_ok sample_cfg (fs full_world) ∧
  zip_result sample_cfg (built_fs toolchain_ok false ∅ sample_cfg (fs full_world))
    = inr tt ∧
  (∀ l, built_fs toolchain_ok false ∅ sample_cfg (fs full_world)
          !! bin_filename sample_cfg ≠ Some (Dir l)) ∧
  ∃ w' es,
    process_target toolchain_ok false ∅ linux_amd64_v3 full_world = (w', inr tt) ∧
    is_Some (built_fs toolchain_ok false ∅ sample_cfg (fs full_world)
               !! bin_filename sample_cfg) ∧
    fs w' !! bin_filename sample_cfg = None ∧
    fs w' !! zip_filename sample_cfg = Some (Archive es) ∧
    ∀ p, p ≠ bin_filename sample_cfg → p ≠ zip_filename sample_cfg →
         fs w' !! p = built_fs toolchain_ok false ∅ sample_cfg (fs full_world) !! p.
Proof.
  assert (H1 : build_ok toolchain_ok sample_cfg (fs full_world)) by reflexivity.
  assert (H2 : zip_result sample_cfg
                 (built_fs toolchain_ok false ∅ sample_cfg (fs full_world)) = inr tt)
    by (vm_compute; reflexivity).
  assert (H3 : ∀ l, built_fs toolchain_ok false ∅ sample_cfg (fs full_world)
                      !! bin_filename sample_cfg ≠ Some (Dir l))
    by (intros l; vm_compute; discriminate).
  split; [exact H1|]. split; [exact H2|]. split; [exact H3|].
  exact (C9_binary_removed toolchain_ok false ∅ linux_amd64_v3 full_world H1 H2 H3).
Defined.

(** C10: when the build succeeded and the [with] block raised [e], the
    binary path holds after the target what it held after the build: the
    clean-up is not reached.  The exception is logged by the second
    [except] clause and nothing reports success. *)
Theorem C10_binary_kept_on_archive_error (shell : Shell) (upx : bool)
    (environ : gmap string string) env w e :
  let c := resolve environ env in
  let m1 := built_fs shell upx environ c (fs w) in
  build_ok shell c (fs w) →
  zip_result c m1 = inl e →
  ∃ w',
    process_target shell upx environ env w = (w', inr tt) ∧
    fs w' !! bin_filename c = m1 !! bin_filename c ∧
    log w' = log w ++ [building c] ++ upx_log shell upx environ c (fs w) ++
             [(ERROR, MsgUnknownError e)].
Proof.
  intros c m1 Hok Hres.
  pose proof (resolve_names_ok environ env) as Hn. fold c in Hn.
  destruct (packaged_exn c m1 e Hn Hres) as [Hb Hl].
  eexists. split; [by apply process_target_built|]. cbn [fs log]. fold c m1.
  by rewrite Hl.
Qed.

Lemma C10_binary_kept_on_archive_error_witness :
  build_ok toolchain_ok sample_cfg (fs locked_world) ∧
  zip_result sample_cfg (built_fs toolchain_ok false ∅ sample_cfg (fs locked_world))
    = inl (PermissionError README_FILE) ∧
  ∃ w',
    process_target toolchain_ok false ∅ linux_amd64_v3 locked_world = (w', inr tt) ∧
    fs w' !! bin_filename sample_cfg
      = built_fs toolchain_ok false ∅ sample_cfg (fs locked_world)
          !! bin_filename sample_cfg ∧
    log w' = log locked_world ++ [building sample_cfg] ++
             upx_log toolchain_ok false ∅ sample_cfg (fs locked_world) ++
             [(ERROR, MsgUnknownError (PermissionError README_FILE))].
Proof.
  assert (H1 : build_ok toolchain_ok sample_cfg (fs locked_world)) by reflexivity.
  assert (H2 : zip_result sample_cfg
                 (built_fs toolchain_ok false ∅ sample_cfg (fs locked_world))
               = inl (PermissionError README_FILE))
    by (vm_compute; reflexivity).
  split; [exact H1|]. split; [exact H2|].
  exact (C10_binary_kept_on_archive_error toolchain_ok false ∅ linux_amd64_v3
           locked_world _ H1 H2).
Defined.

Example scenario_locked :
  fs (process_target toolchain_ok false ∅ linux_amd64_v3 locked_world).1
  = <[README_FILE := File false]>
      (<["mosdns-log" := File true]>
         (<["mosdns-log-linux-amd64-v3.zip" := Archive ["mosdns-log"]]> ∅)).
Proof. vm_compute. reflexivity. Qed.

Example scenario_dated :
  process_target toolchain_ok false ∅ linux_amd64_v3 dated_world =
  (mkWorld (<[README_FILE := OldFile]>
              (<["mosdns-log" := File true]>
                 (<["mosdns-log-linux-amd64-v3.zip" := Archive ["mosdns-log"]]> ∅)))
           [building sample_cfg; (ERROR, MsgUnknownError (ValueError README_FILE))],
   inr tt).
Proof. vm_compute. reflexivity. Qed.

Example contains_directory_part :
  contains (zip_filename (resolve ∅ [("GOOS", "linux"); ("GOARCH", "a/b")])) "/" = true.
Proof. vm_compute. reflexivity. Qed.

End Packaging.

(** * Further properties of the file names *)

Module NameFacts.
Import Str StrFacts Resolver.

Lemma endswith_app_l a r suf :
  endswith r suf = true → endswith (a +:+ r) suf = true.
Proof.
  intros [pre ->]%endswith_inv. rewrite <- app_assoc. apply endswith_app.
Qed.

Lemma endswith_contains s suf : endswith s suf = true → contains s suf = true.
Proof.
  intros [pre ->]%endswith_inv. apply contains_app_r.
  destruct suf as [|c suf]; [reflexivity|].
  rewrite contains_cons.
  by rewrite <- (app_nil_r (String c suf)) at 1; rewrite startswith_app.
Qed.

(** After a stripped occurrence the rest of the string decides whether
    the result ends in [.zip]. *)
Lemma endswith_zip_skip c t :
  endswith (".exe.zip" +:+ String c t) ".zip" = endswith (String c t) ".zip".
Proof. rewrite !app_cons, app_nil_l. reflexivity. Qed.

Lemma replace_exe_zip_endswith s :
  endswith s ".zip" = true → endswith (replace s ".exe.zip" ".zip") ".zip" = true.
Proof.
  enough (replace s ".exe.zip" ".zip" = replace s ".exe.zip" ".zip" ∧
          (endswith s ".zip" = true →
           endswith (replace s ".exe.zip" ".zip") ".zip" = true)) as [_ ?] by done.
  apply (replace_ind ".exe.zip" ".zip"
           (fun s r => r = replace s ".exe.zip" ".zip" ∧
                       (endswith s ".zip" = true → endswith r ".zip" = true)));
    [done|done|..].
  - intros t r [-> IH]. split; [by rewrite replace_match|].
    destruct t as [|c t]; [done|].
    rewrite endswith_zip_skip. intros H. by apply endswith_app_l, IH.
  - intros c t r Hc [-> IH]. split; [by rewrite replace_nomatch|].
    rewrite !endswith_cons. intros [H|H]%orb_true_iff.
    + apply String.eqb_eq in H. by injection H as -> ->.
    + rewrite (IH H). apply orb_true_r.
Qed.

Lemma replace_project_prefix rest :
  replace (PROJECT_NAME +:+ rest) ".exe.zip" ".zip"
  = PROJECT_NAME +:+ replace rest ".exe.zip" ".zip".
Proof.
  unfold PROJECT_NAME. rewrite !app_cons, !app_nil_l.
  by rewrite !replace_nomatch by done.
Qed.

(** ** The merged environment *)

Lemma resolve_loop_app a b e s :
  resolve_loop (a ++ b) e s =
  resolve_loop b (resolve_loop a e s).1 (resolve_loop a e s).2.
Proof.
  revert e s. induction a as [|pairs a IH]; intros e s; [done|]. apply IH.
Qed.

Lemma resolve_loop_lookup_congr env (e1 e2 : gmap string string) s1 s2 k :
  e1 !! k = e2 !! k →
  (resolve_loop env e1 s1).1 !! k = (resolve_loop env e2 s2).1 !! k.
Proof.
  revert e1 e2 s1 s2. induction env as [|[k' v'] rest IH]; intros e1 e2 s1 s2 H;
    [done|].
  apply IH. cbn [fst snd]. destruct (decide (k' = k)) as [->|Hne].
  - by rewrite !lookup_insert_eq.
  - by rewrite !lookup_insert_ne.
Qed.

Lemma resolve_loop_notin env (e : gmap string string) s k :
  k ∉ env.*1 → (resolve_loop env e s).1 !! k = e !! k.
Proof.
  revert e s. induction env as [|[k' v'] rest IH]; intros e s Hk; [done|].
  cbn [fmap list_fmap fst] in Hk. apply not_elem_of_cons in Hk as [Hne Hk].
  cbn [resolve_loop fst snd]. rewrite IH by done. by apply lookup_insert_ne.
Qed.

Lemma name_suffix_app a b : name_suffix (a ++ b) = name_suffix a +:+ name_suffix b.
Proof.
  induction a as [|pairs a IH]; [done|]. cbn [app name_suffix].
  by rewrite IH, app_assoc.
Qed.

(** The three file names depend on the target through what the pairs
    append and through the merged GOOS alone. *)
Lemma names_determined environ environ' env env' :
  name_suffix env = name_suffix env' →
  os_env (resolve environ env) !! "GOOS" = os_env (resolve environ' env') !! "GOOS" →
  name (resolve environ env) = name (resolve environ' env') ∧
  zip_filename (resolve environ env) = zip_filename (resolve environ' env') ∧
  bin_filename (resolve environ env) = bin_filename (resolve environ' env').
Proof.
  intros Hs Hg.
  assert (Hn : name (resolve environ env) = name (resolve environ' env'))
    by (rewrite !name_resolve; unfold is_windows; by rewrite Hs, Hg).
  split; [done|]. split.
  - by rewrite !zip_resolve, Hn.
  - rewrite !bin_resolve. unfold is_windows. by rewrite Hg.
Qed.

End NameFacts.

Section MoreNames.
Import Str StrFacts Resolver NameFacts.

(** X1: every archive file name ends in [.zip], whatever the target and
    the inherited environment. *)
Theorem zip_filename_ends_in_zip environ env :
  endswith (zip_filename (resolve environ env)) ".zip" = true.
Proof.
  rewrite zip_resolve. cbv zeta.
  destruct (endswith (_ +:+ ".zip") ".exe.zip");
    [apply replace_exe_zip_endswith|]; apply endswith_app.
Qed.

(** X2: every archive file name begins with the project name; stripping
    the extension never reaches it. *)
Theorem zip_filename_starts_with_project environ env :
  startswith (zip_filename (resolve environ env)) PROJECT_NAME = true.
Proof.
  rewrite zip_resolve, name_resolve. cbv zeta. rewrite !app_assoc.
  destruct (endswith _ ".exe.zip");
    rewrite ?replace_project_prefix; apply startswith_app.
Qed.

(** X3: a variable that no pair of the target sets reaches the toolchain
    with the value inherited from [os.environ], or stays unset. *)
Theorem os_env_inherits (environ : gmap string string) env k :
  k ∉ env.*1 → os_env (resolve environ env) !! k = environ !! k.
Proof. intros Hk. rewrite os_env_resolve. by apply resolve_loop_notin. Qed.

Lemma os_env_inherits_witness :
("PATH" ∉ linux_amd64_v3.*1) ∧
  os_env (resolve (<["PATH" := "/usr/bin"]> ∅) linux_amd64_v3) !! "PATH"
    = (<["PATH" := "/usr/bin"]> ∅ : gmap string string) !! "PATH".
Proof.
  assert (H : "PATH" ∉ linux_amd64_v3.*1).
  { intros H. repeat (apply elem_of_cons in H as [H|H]; [discriminate|]).
    by apply elem_of_nil in H. }
  split; [exact H|].
  exact (os_env_inherits (<["PATH" := "/usr/bin"]> ∅) linux_amd64_v3 "PATH" H).
Defined.

(** X4: when a variable occurs in several pairs, or is inherited too, the
    toolchain sees the value of the last pair. *)
Theorem os_env_last_pair_wins (environ : gmap string string) pre post k v :
  k ∉ post.*1 →
  os_env (resolve environ (pre ++ (k, v) :: post)) !! k = Some v.
Proof.
  intros Hk. rewrite os_env_resolve, resolve_loop_app. cbn [resolve_loop fst snd].
  rewrite resolve_loop_notin by done. apply lookup_insert_eq.
Qed.

Lemma os_env_last_pair_wins_witness :
("GOOS" ∉ [("GOARCH", "arm64")].*1) ∧
  os_env (resolve (<["GOOS" := "darwin"]> ∅)
            ([("GOOS", "windows")] ++ ("GOOS", "linux") :: [("GOARCH", "arm64")]))
    !! "GOOS" = Some "linux".
Proof.
  assert (H : "GOOS" ∉ [("GOARCH", "arm64")].*1).
  { intros H. repeat (apply elem_of_cons in H as [H|H]; [discriminate|]).
    by apply elem_of_nil in H. }
  split; [exact H|].
  exact (os_env_last_pair_wins (<["GOOS" := "darwin"]> ∅) [("GOOS", "windows")]
           [("GOARCH", "arm64")] "GOOS" "linux" H).
Defined.

(** X5: the value of a GOAMD64 pair reaches no file name: two targets that differ in that value alone get the same archive
    and binary file names. *)
Theorem names_ignore_goamd64_value environ pre post v v' :
  zip_filename (resolve environ (pre ++ ("GOAMD64", v) :: post))
    = zip_filename (resolve environ (pre ++ ("GOAMD64", v') :: post)) ∧
  bin_filename (resolve environ (pre ++ ("GOAMD64", v) :: post))
    = bin_filename (resolve environ (pre ++ ("GOAMD64", v') :: post)).
Proof.
  split.
  all: apply (names_determined environ environ
                (pre ++ ("GOAMD64", v) :: post) (pre ++ ("GOAMD64", v') :: post)).
  all: try (by rewrite !name_suffix_app).
  all: rewrite !os_env_resolve, !resolve_loop_app; cbn [resolve_loop fst snd];
    apply resolve_loop_lookup_congr; by rewrite !lookup_insert_ne.
Qed.

(** X6: a pair whose key is none of GOOS, GOARCH and GOAMD64 leaves the
    archive and binary file names as they are without it. *)
Theorem names_ignore_other_keys environ pre post k v :
  k ≠ "GOOS" → k ≠ "GOARCH" → k ≠ "GOAMD64" →
  zip_filename (resolve environ (pre ++ (k, v) :: post))
    = zip_filename (resolve environ (pre ++ post)) ∧
  bin_filename (resolve environ (pre ++ (k, v) :: post))
    = bin_filename (resolve environ (pre ++ post)).
Proof.
  intros H1 H2 H3.
  assert (Hp : name_piece (k, v) = "").
  { unfold name_piece, name_step. cbn [fst snd].
    by rewrite !(proj2 (String.eqb_neq _ _)). }
  split.
  all: apply (names_determined environ environ (pre ++ (k, v) :: post) (pre ++ post)).
  all: try (rewrite !name_suffix_app; cbn [name_suffix]; by rewrite Hp).
  all: rewrite !os_env_resolve, !resolve_loop_app; cbn [resolve_loop fst snd];
    apply resolve_loop_lookup_congr; by rewrite lookup_insert_ne.
Qed.

Lemma names_ignore_other_keys_witness :
  "CGO_ENABLED" ≠ "GOOS" ∧ "CGO_ENABLED" ≠ "GOARCH" ∧ "CGO_ENABLED" ≠ "GOAMD64" ∧
  zip_filename (resolve ∅ ([("GOOS", "linux")] ++ ("CGO_ENABLED", "0") :: [("GOARCH", "arm64")]))
    = zip_filename (resolve ∅ ([("GOOS", "linux")] ++ [("GOARCH", "arm64")])) ∧
  bin_filename (resolve ∅ ([("GOOS", "linux")] ++ ("CGO_ENABLED", "0") :: [("GOARCH", "arm64")]))
    = bin_filename (resolve ∅ ([("GOOS", "linux")] ++ [("GOARCH", "arm64")])).
Proof.
  assert (H1 : "CGO_ENABLED" ≠ "GOOS") by discriminate.
  assert (H2 : "CGO_ENABLED" ≠ "GOARCH") by discriminate.
  assert (H3 : "CGO_ENABLED" ≠ "GOAMD64") by discriminate.
  split; [exact H1|]. split; [exact H2|]. split; [exact H3|].
  exact (names_ignore_other_keys ∅ [("GOOS", "linux")] [("GOARCH", "arm64")]
           "CGO_ENABLED" "0" H1 H2 H3).
Defined.

(** X7: when no GOOS or GOARCH value contains [.exe], the archive file
    name is the project name, what the pairs append, and [.zip], for
    Windows targets as for the others. *)
Theorem zip_filename_clean environ env :
  Forall (fun pairs : string * string =>
            pairs.1 = "GOOS" ∨ pairs.1 = "GOARCH" → contains pairs.2 ".exe" = false) env →
  zip_filename (resolve environ env) = (PROJECT_NAME +:+ name_suffix env) +:+ ".zip".
Proof.
  intros Henv.
  pose proof (name_suffix_no_exe env PROJECT_NAME Henv eq_refl) as Hstem.
  rewrite zip_resolve, name_resolve. cbv zeta.
  destruct (is_windows _).
  - rewrite app_assoc. change (".exe" +:+ ".zip") with ".exe.zip".
    by rewrite endswith_app, replace_exe_zip_strip.
  - rewrite app_nil_r, (endswith_app_r _ ".exe" ".zip").
    destruct (endswith _ ".exe") eqn:E; [|done].
    apply endswith_contains in E. by rewrite Hstem in E.
Qed.

Lemma zip_filename_clean_witness :
  Forall (fun pairs : string * string =>
            pairs.1 = "GOOS" ∨ pairs.1 = "GOARCH" → contains pairs.2 ".exe" = false)
         windows_amd64 ∧
  zip_filename (resolve ∅ windows_amd64)
    = (PROJECT_NAME +:+ name_suffix windows_amd64) +:+ ".zip".
Proof.
  assert (H : Forall (fun pairs : string * string =>
                pairs.1 = "GOOS" ∨ pairs.1 = "GOARCH" → contains pairs.2 ".exe" = false)
              windows_amd64) by (repeat constructor).
  split; [exact H|]. exact (zip_filename_clean ∅ windows_amd64 H).
Defined.

End MoreNames.

(** * Further properties of packaging *)

Module MoreRuns.
Import Str StrFacts Resolver Runs.

(** Packaging touches the archive path and the binary path only. *)
Lemma packaged_frame c (m : gmap string node) p :
  p ≠ bin_filename c → p ≠ zip_filename c → (packaged c m).1 !! p = m !! p.
Proof.
  intros Hb Hz. unfold packaged.
  destruct (m !! zip_filename c) as [[| | |]|]; try done;
    destruct (written (manifest c m)).2;
    try destruct (m !! bin_filename c) as [[| | |]|]; cbn [fst];
    by rewrite ?lookup_delete_ne, ?lookup_insert_ne.
Qed.

Lemma manifest_entries_readme c (m : gmap string node) n :
  n ∈ (written (manifest c m)).1 →
  n = bin_filename c ∨ n = bin_filename c +:+ "/" ∨
  (n = "config.yaml" ∨ n = "config.yaml/") ∨
  (is_Some (m !! README_FILE) ∧ (n = "README.md" ∨ n = "README.md/")) ∨
  startswith n "web/" = true.
Proof.
  intros (it & Hit & He)%written_in. unfold manifest in Hit.
  rewrite !elem_of_app in Hit. destruct Hit as [Hit|[Hit|[Hit|Hit]]].
  - apply list_elem_of_singleton in Hit as ->.
    apply entry_of_name in He as [->| ->]; cbn [fst snd]; auto 10.
  - destruct (bool_decide (is_Some (m !! CONFIG_FILE)));
      [|by apply elem_of_nil in Hit].
    apply list_elem_of_singleton in Hit as ->.
    apply entry_of_name in He as [->| ->]; cbn [fst snd]; auto 10.
  - destruct (bool_decide_reflect (is_Some (m !! README_FILE))) as [Hc|_];
      [|by apply elem_of_nil in Hit].
    apply list_elem_of_singleton in Hit as ->.
    apply entry_of_name in He as [->| ->]; cbn [fst snd]; auto 10.
  - destruct (m !! WEB_DIR) as [web|] eqn:Hweb; [|by apply elem_of_nil in Hit].
    apply web_items_in in Hit as (root & dirs & files & f & Ht & Hf & ->).
    apply os_walk_spec in Ht as [Hroot Hfiles]. specialize (Hfiles _ Hf).
    cbn [fst snd] in He. do 4 right.
    destruct (relpath_up_web root f.1 Hroot) as [_ Hs].
    destruct f.2 as [[]| | |]; try done; by injection He as <-.
Qed.


(** The writes do not depend on what the archive path holds. *)
Lemma manifest_at_zip c (m m' : gmap string node) :
  names_ok c → (∀ p, p ≠ zip_filename c → m' !! p = m !! p) →
  manifest c m' = manifest c m.
Proof.
  intros (Hb & Hc & Hr & Hw) H. unfold manifest.
  by rewrite !(H _ Hb), !(H _ Hc), !(H _ Hr), !(H _ Hw).
Qed.

Lemma zip_ok_inv c (m : gmap string node) :
  names_ok c → zip_result c m = inr tt →
  (∀ l, m !! zip_filename c ≠ Some (Dir l)) ∧ (written (manifest c m)).2 = None.
Proof.
  intros Hok Hr. rewrite zip_result_run in Hr by done. split.
  - intros l E. by rewrite E in Hr.
  - destruct (m !! zip_filename c) as [[| | |]|]; try done;
      by destruct (written (manifest c m)).2.
Qed.

End MoreRuns.

Section MorePackaging.
Import Str StrFacts Resolver Runs MoreRuns.

(** X8: after a successful build, whatever happens in packaging, the
    target leaves every path other than the binary path and the archive
    path holding what the build left there. *)
Theorem packaging_frame (shell : Shell) (upx : bool)
    (environ : gmap string string) env w :
  let c := resolve environ env in
  let m1 := built_fs shell upx environ c (fs w) in
  build_ok shell c (fs w) →
  ∃ w',
    process_target shell upx environ env w = (w', inr tt) ∧
    ∀ p, p ≠ bin_filename c → p ≠ zip_filename c → fs w' !! p = m1 !! p.
Proof.
  intros c m1 Hok. eexists. split; [by apply process_target_built|].
  intros p Hb Hz. cbn [fs]. by apply packaged_frame.
Qed.

Lemma packaging_frame_witness :
  build_ok toolchain_ok sample_cfg (fs locked_world) ∧
  ∃ w',
    process_target toolchain_ok true ∅ linux_amd64_v3 locked_world = (w', inr tt) ∧
    ∀ p, p ≠ bin_filename sample_cfg → p ≠ zip_filename sample_cfg →
         fs w' !! p = built_fs toolchain_ok true ∅ sample_cfg (fs locked_world) !! p.
Proof.
  assert (H1 : build_ok toolchain_ok sample_cfg (fs locked_world)) by reflexivity.
  split; [exact H1|].
  exact (packaging_frame toolchain_ok true ∅ linux_amd64_v3 locked_world H1).
Defined.

(** X9: the archive of a target never holds anything but the binary, the
    configuration file and the readme under their fixed names (with a
    trailing [/] where a directory stands at the source), and entries
    below [web/]. *)
Theorem archive_entries_only (shell : Shell) (upx : bool)
    (environ : gmap string string) env w :
  let c := resolve environ env in
  let m1 := built_fs shell upx environ c (fs w) in
  build_ok shell c (fs w) →
  (∀ l, m1 !! zip_filename c ≠ Some (Dir l)) →
  ∃ w' es,
    process_target shell upx environ env w = (w', inr tt) ∧
    fs w' !! zip_filename c = Some (Archive es) ∧
    ∀ n, n ∈ es →
      n ∈ [bin_filename c; bin_filename c +:+ "/"; "config.yaml"; "config.yaml/";
           "README.md"; "README.md/"] ∨
      startswith n "web/" = true.
Proof.
  intros c m1 Hok Hzip.
  pose proof (resolve_names_ok environ env) as Hn. fold c in Hn.
  eexists _, _. split; [by apply process_target_built|]. cbn [fs]. fold c m1.
  split; [by apply packaged_zip|].
  intros n [->|[->|[[_ [->| ->]]|[[->| ->]|[_ H]]]]]%manifest_entries;
    [left..|by right]; rewrite !elem_of_cons; auto 10.
Qed.

Lemma archive_entries_only_witness :
  build_ok toolchain_ok sample_cfg (fs full_world) ∧
  (∀ l, built_fs toolchain_ok false ∅ sample_cfg (fs full_world)
          !! zip_filename sample_cfg ≠ Some (Dir l)) ∧
  ∃ w' es,
    process_target toolchain_ok false ∅ linux_amd64_v3 full_world = (w', inr tt) ∧
    fs w' !! zip_filename sample_cfg = Some (Archive es) ∧
    ∀ n, n ∈ es →
      n ∈ [bin_filename sample_cfg; bin_filename sample_cfg +:+ "/";
           "config.yaml"; "config.yaml/"; "README.md"; "README.md/"] ∨
      startswith n "web/" = true.
Proof.
  assert (H1 : build_ok toolchain_ok sample_cfg (fs full_world)) by reflexivity.
  assert (H2 : ∀ l, built_fs toolchain_ok false ∅ sample_cfg (fs full_world)
                      !! zip_filename sample_cfg ≠ Some (Dir l))
    by (intros l; vm_compute; discriminate).
  split; [exact H1|]. split; [exact H2|].
  exact (archive_entries_only toolchain_ok false ∅ linux_amd64_v3 full_world H1 H2).
Defined.

(** X10: when the configuration file exists as a file and the archive is
    written without an exception, the archive holds it under the fixed
    name [config.yaml], and not under the path it was read from. *)
Theorem config_stored_under_fixed_name (shell : Shell) (upx : bool)
    (environ : gmap string string) env w n :
  let c := resolve environ env in
  let m1 := built_fs shell upx environ c (fs w) in
  build_ok shell c (fs w) →
  zip_result c m1 = inr tt →
  m1 !! CONFIG_FILE = Some n → is_dir n = false →
  ∃ w' es,
    process_target shell upx environ env w = (w', inr tt) ∧
    fs w' !! zip_filename c = Some (Archive es) ∧
    "config.yaml" ∈ es ∧ CONFIG_FILE ∉ es.
Proof.
  intros c m1 Hok Hres Hcfg Hn.
  pose proof (resolve_names_ok environ env) as Hnames. fold c in Hnames.
  destruct (zip_ok_inv c m1 Hnames Hres) as [Hzip Hnone].
  eexists _, _. split; [by apply process_target_built|]. cbn [fs]. fold c m1.
  split; [by apply packaged_zip|]. split.
  - assert (Hit : (m1 !! CONFIG_FILE, CONFIG_FILE, "config.yaml") ∈ manifest c m1).
    { unfold manifest. rewrite !elem_of_app. right. left.
      rewrite bool_decide_eq_true_2 by (rewrite Hcfg; eauto).
      apply list_elem_of_here. }
    destruct (written_all _ _ Hnone Hit) as (e & He & Hin). cbn [fst snd] in He.
    rewrite Hcfg in He. destruct n as [[]| | |]; try done; by injection He as <-.
  - intros [E|[E|[[_ [E|E]]|[[E|E]|[_ E]]]]]%manifest_entries; try done.
    + unfold c in E. rewrite bin_resolve in E. by destruct (is_windows _).
    + unfold c in E. rewrite bin_resolve in E. by destruct (is_windows _).
Qed.

Lemma config_stored_under_fixed_name_witness :
  build_ok toolchain_ok sample_cfg (fs full_world) ∧
  zip_result sample_cfg (built_fs toolchain_ok false ∅ sample_cfg (fs full_world))
    = inr tt ∧
  built_fs toolchain_ok false ∅ sample_cfg (fs full_world) !! CONFIG_FILE
    = Some (File true) ∧
  is_dir (File true) = false ∧
  ∃ w' es,
    process_target toolchain_ok false ∅ linux_amd64_v3 full_world = (w', inr tt) ∧
    fs w' !! zip_filename sample_cfg = Some (Archive es) ∧
    "config.yaml" ∈ es ∧ CONFIG_FILE ∉ es.
Proof.
  assert (H1 : build_ok toolchain_ok sample_cfg (fs full_world)) by reflexivity.
  assert (H2 : zip_result sample_cfg
                 (built_fs toolchain_ok false ∅ sample_cfg (fs full_world)) = inr tt)
    by (vm_compute; reflexivity).
  assert (H3 : built_fs toolchain_ok false ∅ sample_cfg (fs full_world) !! CONFIG_FILE
               = Some (File true)) by (vm_compute; reflexivity).
  assert (H4 : is_dir (File true) = false) by reflexivity.
  split; [exact H1|]. split; [exact H2|]. split; [exact H3|]. split; [exact H4|].
  exact (config_stored_under_fixed_name toolchain_ok false ∅ linux_amd64_v3 full_world
           (File true) H1 H2 H3 H4).
Defined.

(** X11: when the archive is written without an exception, it has the
    entry [README.md] if the readme exists as a file, and no such entry if
    the readme does not exist. *)
Theorem readme_included_when_present (shell : Shell) (upx : bool)
    (environ : gmap string string) env w :
  let c := resolve environ env in
  let m1 := built_fs shell upx environ c (fs w) in
  build_ok shell c (fs w) →
  zip_result c m1 = inr tt →
  ∃ w' es,
    process_target shell upx environ env w = (w', inr tt) ∧
    fs w' !! zip_filename c = Some (Archive es) ∧
    (∀ n, m1 !! README_FILE = Some n → is_dir n = false → "README.md" ∈ es) ∧
    (m1 !! README_FILE = None → "README.md" ∉ es).
Proof.
  intros c m1 Hok Hres.
  pose proof (resolve_names_ok environ env) as Hnames. fold c in Hnames.
  destruct (zip_ok_inv c m1 Hnames Hres) as [Hzip Hnone].
  eexists _, _. split; [by apply process_target_built|]. cbn [fs]. fold c m1.
  split; [by apply packaged_zip|]. split.
  - intros n Hr Hn.
    assert (Hit : (m1 !! README_FILE, README_FILE, "README.md") ∈ manifest c m1).
    { unfold manifest. rewrite !elem_of_app. do 2 right. left.
      rewrite bool_decide_eq_true_2 by (rewrite Hr; eauto).
      apply list_elem_of_here. }
    destruct (written_all _ _ Hnone Hit) as (e & He & Hin). cbn [fst snd] in He.
    rewrite Hr in He. destruct n as [[]| | |]; try done; by injection He as <-.
  - intros Hr [E|[E|[[E|E]|[[[? Hs] _]|E]]]]%manifest_entries_readme; try done.
    + unfold c in E. rewrite bin_resolve in E. by destruct (is_windows _).
    + unfold c in E. rewrite bin_resolve in E. by destruct (is_windows _).
    + by rewrite Hr in Hs.
Qed.

Lemma readme_included_when_present_witness :
  build_ok toolchain_ok sample_cfg (fs full_world) ∧
  zip_result sample_cfg (built_fs toolchain_ok false ∅ sample_cfg (fs full_world))
    = inr tt ∧
  ∃ w' es,
    process_target toolchain_ok false ∅ linux_amd64_v3 full_world = (w', inr tt) ∧
    fs w' !! zip_filename sample_cfg = Some (Archive es) ∧
    (∀ n, built_fs toolchain_ok false ∅ sample_cfg (fs full_world) !! README_FILE
            = Some n → is_dir n = false → "README.md" ∈ es) ∧
    (built_fs toolchain_ok false ∅ sample_cfg (fs full_world) !! README_FILE = None →
     "README.md" ∉ es).
Proof.
  assert (H1 : build_ok toolchain_ok sample_cfg (fs full_world)) by reflexivity.
  assert (H2 : zip_result sample_cfg
                 (built_fs toolchain_ok false ∅ sample_cfg (fs full_world)) = inr tt)
    by (vm_compute; reflexivity).
  split; [exact H1|]. split; [exact H2|].
  exact (readme_included_when_present toolchain_ok false ∅ linux_amd64_v3 full_world
           H1 H2).
Defined.

End MorePackaging.

(** * How a target can end *)

Module Outcomes.
Import Str StrFacts Resolver Runs MoreRuns.

(** What stood at the archive path before does not matter. *)
Lemma packaged_at_zip c (m : gmap string node) n :
  names_ok c → is_dir n = false →
  packaged c (<[zip_filename c := n]> m) = packaged c (delete (zip_filename c) m).
Proof.
  intros Hok Hn. pose proof Hok as (Hb & _ & _ & Hw). unfold packaged.
  rewrite lookup_insert_eq, lookup_delete_eq.
  rewrite (manifest_at_zip c m (<[zip_filename c := n]> m) Hok)
    by (intros p Hp; by rewrite lookup_insert_ne).
  rewrite (manifest_at_zip c m (delete (zip_filename c) m) Hok)
    by (intros p Hp; by rewrite lookup_delete_ne).
  rewrite insert_insert_eq, insert_delete_eq.
  rewrite !lookup_insert_ne, !lookup_delete_ne by done.
  by destruct n.
Qed.

(** The three ways a target ends, by the outcome of the toolchain. *)
Lemma process_target_cases (shell : Shell) (upx : bool)
    (environ : gmap string string) env w :
  let c := resolve environ env in
  let cmd := build_cmd (bin_filename c) in
  let m1 := built_fs shell upx environ c (fs w) in
  process_target shell upx environ env w =
  match (shell cmd (os_env c) (fs w)).1 with
  | Exited 0 =>
      (mkWorld (packaged c m1).1
               (log w ++ [building c] ++ upx_log shell upx environ c (fs w) ++
                (packaged c m1).2), inr tt)
  | Exited code =>
      (mkWorld (shell cmd (os_env c) (fs w)).2
               (log w ++ [building c;
                          (ERROR, MsgBuildFailed (CalledProcessError cmd code))]),
       inr tt)
  | SpawnFailed =>
      (mkWorld (shell cmd (os_env c) (fs w)).2
               (log w ++ [building c; (ERROR, MsgUnknownError (OSError cmd))]),
       inr tt)
  end.
Proof.
  intros c cmd m1.
  destruct (shell cmd (os_env c) (fs w)) as [res fs1] eqn:E. cbn [fst snd].
  assert (Hfail : ∀ code, res = Exited code → code ≠ 0%Z →
    process_target shell upx environ env w =
    (mkWorld fs1 (log w ++ [building c;
                            (ERROR, MsgBuildFailed (CalledProcessError cmd code))]),
     inr tt)).
  { intros code -> Hcode. rewrite process_target_run. unfold try_except. fold c.
    rewrite (build_fail_run shell upx environ c _ code fs1) by done.
    rewrite on_error_run. cbn [fs log error_record]. by rewrite <- List.app_assoc. }
  destruct res as [[|q|q]|].
  - apply process_target_built. unfold build_ok. fold c cmd. by rewrite E.
  - by apply Hfail.
  - by apply Hfail.
  - rewrite process_target_run. unfold try_except, target_body. fold c.
    rewrite bind_run. unfold build_phase. rewrite bind_run.
    unfold build_step, check_call. cbn [fs log]. fold cmd. rewrite E.
    rewrite on_error_run. cbn [fs log error_record]. by rewrite <- List.app_assoc.
Qed.

Lemma upx_log_records (shell : Shell) upx (environ : gmap string string) c m rec :
  rec ∈ upx_log shell upx environ c m →
  rec = (INFO, MsgCompressing) ∨ rec = (ERROR, MsgUpxFailed).
Proof.
  unfold upx_log. destruct upx; [|by intros ?%elem_of_nil].
  destruct (shell _ environ _).1 as [[|?|?]|];
    rewrite ?elem_of_cons, ?elem_of_nil; tauto.
Qed.

Lemma web_warning_records raised web rec :
  rec ∈ web_warning raised web → rec = (WARNING, MsgWebMissing).
Proof.
  unfold web_warning. destruct raised, web;
    rewrite ?elem_of_cons, ?elem_of_nil; tauto.
Qed.

(** Packaging logs the warning, the success record, or an unknown error. *)
Lemma packaged_records c (m : gmap string node) rec :
  rec ∈ (packaged c m).2 →
  rec = (WARNING, MsgWebMissing) ∨ rec = (INFO, MsgSuccess (zip_filename c)) ∨
  ∃ e, rec = (ERROR, MsgUnknownError e).
Proof.
  unfold packaged.
  destruct (m !! zip_filename c) as [[| | |]|];
    try (intros ->%list_elem_of_singleton; right; right; by eexists);
    destruct (written (manifest c m)).2 eqn:Hr;
    try (intros ->%list_elem_of_singleton; right; right;
         rewrite (written_exn _ _ Hr); by eexists);
    destruct (m !! bin_filename c) as [[| | |]|]; cbn [snd];
    rewrite elem_of_app, list_elem_of_singleton;
    (intros [->%web_warning_records| ->]; [by left|]);
    try (right; by left); right; right; by eexists.
Qed.

(** A success record comes with the complete archive and without the
    binary. *)
Lemma packaged_success_inv c (m : gmap string node) z :
  names_ok c → (INFO, MsgSuccess z) ∈ (packaged c m).2 →
  zip_result c m = inr tt ∧
  (packaged c m).1 !! bin_filename c = None ∧
  (packaged c m).1 !! zip_filename c = Some (Archive (written (manifest c m)).1).
Proof.
  intros Hok. pose proof Hok as (Hb & _). rewrite zip_result_run by done.
  unfold packaged.
  destruct (m !! zip_filename c) as [[| | |]|];
    try (by intros [=]%list_elem_of_singleton);
    destruct (written (manifest c m)).2 eqn:Hr;
    try (by intros [=]%list_elem_of_singleton);
    destruct (m !! bin_filename c) as [[| | |]|] eqn:Hbin; cbn [fst snd];
    rewrite elem_of_app, list_elem_of_singleton;
    (intros [[=]%web_warning_records|H]; try discriminate H);
    rewrite ?lookup_delete_eq, ?lookup_delete_ne, ?lookup_insert_eq by done;
    try done; by rewrite lookup_insert_ne.
Qed.

(** ** Files at any depth *)

Lemma file_at_inv n comps st :
  file_at n comps st → is_dir n = true ∧ comps ≠ [] ∧ is_dir st = false.
Proof. induction 1 as [|ch nm sub comps st Hin H IH]; [done|]. by destruct IH as (_ & _ & ?). Qed.

Lemma join_comps_cons c comps :
  comps ≠ [] → join_comps (c :: comps) = path_join c (join_comps comps).
Proof. by destruct comps. Qed.

Lemma os_walk_file_at n comps st :
  file_at n comps st →
  ∀ top, ∃ root dirs files file,
    (root, dirs, files) ∈ os_walk top n ∧ (file, st) ∈ files ∧
    path_join root file = path_join top (join_comps comps).
Proof.
  induction 1 as [ch nm st Hin Hst|ch nm sub comps st Hin H IH]; intros top.
  - exists top, (List.filter (fun d => is_dir d.2) ch).*1,
           (List.filter (fun d => negb (is_dir d.2)) ch), nm.
    split; [apply list_elem_of_here|]. split; [|done].
    apply list_elem_of_In, filter_In. split; [by apply list_elem_of_In|].
    cbn [snd]. by rewrite Hst.
  - destruct (file_at_inv _ _ _ H) as (Hsub & Hne & _).
    destruct (IH (path_join top nm)) as (root & dirs & files & file & Ht & Hf & Hp).
    exists root, dirs, files, file. split; [|split; [done|]].
    + cbn [os_walk]. apply list_elem_of_further, list_elem_of_In, in_flat_map.
      exists (nm, sub). split; [by apply list_elem_of_In|].
      rewrite Hsub. by apply list_elem_of_In.
    + by rewrite Hp, path_join_assoc, join_comps_cons.
Qed.

End Outcomes.

Section Assets.
Import Str StrFacts Resolver Runs MoreRuns Outcomes.

(** C6: when the asset directory exists and the archive, created in the
    current directory (its name has no directory part), is written without
    an exception, every regular file at any depth below the asset
    directory is an entry of the archive, under the name the script
    computes for it: its path from the release directory with the leading
    [../] removed, which is [web/] followed by its path below the asset
    directory. *)
Theorem C6_assets_added (shell : Shell) (upx : bool)
    (environ : gmap string string) env w web :
  let c := resolve environ env in
  let m1 := built_fs shell upx environ c (fs w) in
  build_ok shell c (fs w) →
  m1 !! WEB_DIR = Some web →
  contains (zip_filename c) "/" = false →
  zip_result c m1 = inr tt →
  ∃ w' es,
    process_target shell upx environ env w = (w', inr tt) ∧
    fs w' !! zip_filename c = Some (Archive es) ∧
    ∀ comps st, file_at web comps st →
      relpath_up (path_join WEB_DIR (join_comps comps)) ∈ es ∧
      relpath_up (path_join WEB_DIR (join_comps comps)) = "web/" +:+ join_comps comps ∧
      startswith (relpath_up (path_join WEB_DIR (join_comps comps))) "web/" = true.
Proof.
  intros c m1 Hok Hweb _ Hres.
  pose proof (resolve_names_ok environ env) as Hn. fold c in Hn.
  destruct (zip_ok_inv c m1 Hn Hres) as [Hzip Hnone].
  eexists _, _. split; [by apply process_target_built|]. cbn [fs]. fold c m1.
  split; [by apply packaged_zip|].
  intros comps st Hfile. split; [|done].
  destruct (os_walk_file_at _ _ _ Hfile WEB_DIR)
    as (root & dirs & files & file & Ht & Hf & Hp).
  destruct (file_at_inv _ _ _ Hfile) as (_ & _ & Hst).
  assert (Hit : (Some st, path_join root file, relpath_up (path_join root file))
                ∈ manifest c m1).
  { unfold manifest. rewrite Hweb, !elem_of_app. do 3 right.
    by apply (web_items_of _ _ _ _ _ (file, st) Ht). }
  destruct (written_all _ _ Hnone Hit) as (n & He & Hin). cbn [fst snd] in He.
  rewrite Hp in He.
  destruct st as [[]| | |]; try done; by injection He as <-.
Qed.

Lemma C6_assets_added_witness :
  build_ok toolchain_ok sample_cfg (fs full_world) ∧
  built_fs toolchain_ok false ∅ sample_cfg (fs full_world) !! WEB_DIR
    = Some (Dir [("index.html", File true); ("css", Dir [("style.css", File true)])]) ∧
  contains (zip_filename sample_cfg) "/" = false ∧
  zip_result sample_cfg (built_fs toolchain_ok false ∅ sample_cfg (fs full_world))
    = inr tt ∧
  ∃ w' es,
    process_target toolchain_ok false ∅ linux_amd64_v3 full_world = (w', inr tt) ∧
    fs w' !! zip_filename sample_cfg = Some (Archive es) ∧
    ∀ comps st,
      file_at (Dir [("index.html", File true); ("css", Dir [("style.css", File true)])])
        comps st →
      relpath_up (path_join WEB_DIR (join_comps comps)) ∈ es ∧
      relpath_up (path_join WEB_DIR (join_comps comps)) = "web/" +:+ join_comps comps ∧
      startswith (relpath_up (path_join WEB_DIR (join_comps comps))) "web/" = true.
Proof.
  assert (H1 : build_ok toolchain_ok sample_cfg (fs full_world)) by reflexivity.
  assert (H2 : built_fs toolchain_ok false ∅ sample_cfg (fs full_world) !! WEB_DIR
               = Some (Dir [("index.html", File true);
                            ("css", Dir [("style.css", File true)])]))
    by (vm_compute; reflexivity).
  assert (H3 : contains (zip_filename sample_cfg) "/" = false)
    by (vm_compute; reflexivity).
  assert (H4 : zip_result sample_cfg
                 (built_fs toolchain_ok false ∅ sample_cfg (fs full_world)) = inr tt)
    by (vm_compute; reflexivity).
  split; [exact H1|]. split; [exact H2|]. split; [exact H3|]. split; [exact H4|].
  exact (C6_assets_added toolchain_ok false ∅ linux_amd64_v3 full_world _
           H1 H2 H3 H4).
Defined.

End Assets.

Section MoreOutcomes.
Import Str StrFacts Resolver Runs MoreRuns Outcomes.

(** X12: the archive is opened for writing, not for appending: lines
    79-113 run on a file system with a stale file or archive at the
    archive path exactly as they run with nothing there. *)
Theorem stale_archive_overwritten (environ : gmap string string) env
    (m : gmap string node) lg n :
  let c := resolve environ env in
  is_dir n = false →
  try_except (package c) on_error (mkWorld (<[zip_filename c := n]> m) lg) =
  try_except (package c) on_error (mkWorld (delete (zip_filename c) m) lg).
Proof.
  intros c Hn. pose proof (resolve_names_ok environ env) as Hok. fold c in Hok.
  by rewrite !package_run, packaged_at_zip.
Qed.

Lemma stale_archive_overwritten_witness :
  is_dir (Archive ["old-entry"]) = false ∧
  try_except (package sample_cfg) on_error
    (mkWorld (<[zip_filename sample_cfg := Archive ["old-entry"]]>
                (<["mosdns-log" := File true]> full_tree)) []) =
  try_except (package sample_cfg) on_error
    (mkWorld (delete (zip_filename sample_cfg)
                (<["mosdns-log" := File true]> full_tree)) []).
Proof.
  assert (H : is_dir (Archive ["old-entry"]) = false) by reflexivity.
  split; [exact H|].
  exact (stale_archive_overwritten ∅ linux_amd64_v3
           (<["mosdns-log" := File true]> full_tree) [] (Archive ["old-entry"]) H).
Defined.



(** X14: whatever the toolchain, the compressor and the file system do,
    [go_build] returns without an exception, and its log has the line-59
    record of every target of the list. *)
Theorem go_build_announces_every_target (shell : Shell) (upx : bool)
    (environ : gmap string string) targets w :
  (go_build shell upx environ targets w).2 = inr tt ∧
  ∃ l,
    log (go_build shell upx environ targets w).1 = log w ++ l ∧
    ∀ env, env ∈ targets → building (resolve environ env) ∈ l.
Proof.
  split; [apply go_build_returns|].
  assert (Hloop : ∀ w1, ∃ l,
    log (for_each targets (process_target shell upx environ) w1).1 = log w1 ++ l ∧
    ∀ env, env ∈ targets → building (resolve environ env) ∈ l).
  { induction targets as [|env rest IH]; intros w1.
    - exists []. split; [by rewrite List.app_nil_r|]. by intros env ?%elem_of_nil.
    - cbn [for_each]. rewrite bind_run.
      pose proof (process_target_returns shell upx environ env w1) as Hret.
      pose proof (process_target_cases shell upx environ env w1) as Hc.
      cbv zeta in Hc.
      destruct (process_target shell upx environ env w1) as [w2 [e|[]]]; [done|].
      assert (∃ l1, log w2 = log w1 ++ building (resolve environ env) :: l1)
        as [l1 Hl1].
      { destruct (shell _ _ (fs w1)).1 as [[|?|?]|]; injection Hc as ->;
          cbn [log]; by eexists. }
      destruct (IH w2) as (l2 & Hl2 & Hin).
      exists (building (resolve environ env) :: l1 ++ l2). split.
      + rewrite Hl2, Hl1. by rewrite <- List.app_assoc.
      + intros env' [->|H]%elem_of_cons; [apply list_elem_of_here|].
        apply list_elem_of_further, elem_of_app. right. by apply Hin. }
  unfold go_build. rewrite bind_run. unfold logger at 1.
  rewrite bind_run. unfold path_exists. cbn [fs log].
  destruct (bool_decide _); rewrite bind_run; cbn [mret M_ret logger fs log].
  - destruct (Hloop (mkWorld (fs w) (log w ++ [(INFO, MsgStart)]))) as (l & Hl & Hin).
    exists ((INFO, MsgStart) :: l). cbn [log] in Hl. rewrite Hl.
    split; [by rewrite <- List.app_assoc|].
    intros env H. by apply list_elem_of_further, Hin.
  - destruct (Hloop (mkWorld (fs w)
                       ((log w ++ [(INFO, MsgStart)]) ++ [(WARNING, MsgConfigMissing)])))
      as (l & Hl & Hin).
    exists ((INFO, MsgStart) :: (WARNING, MsgConfigMissing) :: l).
    cbn [log] in Hl. rewrite Hl.
    split; [by rewrite <- !List.app_assoc|].
    intros env H. by apply list_elem_of_further, list_elem_of_further, Hin.
Qed.

(** X15: the record of line 111 is logged for a non-zero exit of the
    toolchain and for nothing else: a failure of the compressor or of
    packaging is never reported as a failed build. *)
Theorem build_failed_record_meaning (shell : Shell) (upx : bool)
    (environ : gmap string string) env w :
  let c := resolve environ env in
  let cmd := build_cmd (bin_filename c) in
  ∃ l,
    log (process_target shell upx environ env w).1 = log w ++ l ∧
    ∀ e, (ERROR, MsgBuildFailed e) ∈ l →
      ∃ code, code ≠ 0%Z ∧ (shell cmd (os_env c) (fs w)).1 = Exited code ∧
              e = CalledProcessError cmd code.
Proof.
  intros c cmd. rewrite process_target_cases. fold c cmd.
  destruct (shell cmd (os_env c) (fs w)).1 as [[|q|q]|]; cbn [fst log];
    eexists; (split; [reflexivity|]); intros e.
  - unfold building. rewrite !elem_of_app, list_elem_of_singleton.
    intros [[=]|[H%upx_log_records|H%packaged_records]];
      [destruct H as [[=]|[=]]|destruct H as [[=]|[[=]|[? [=]]]]].
  - unfold building. rewrite !elem_of_cons, elem_of_nil. intros [[=]|[[= ->]|[]]].
    by exists (Z.pos q).
  - unfold building. rewrite !elem_of_cons, elem_of_nil. intros [[=]|[[= ->]|[]]].
    by exists (Z.neg q).
  - unfold building. rewrite !elem_of_cons, elem_of_nil. by intros [[=]|[[=]|[]]].
Qed.

(** X16: a success record in the log of a target means that the
    toolchain exited with status 0, the [with] block raised nothing, the
    archive is on disk and the binary is gone. *)
Theorem success_record_meaning (shell : Shell) (upx : bool)
    (environ : gmap string string) env w :
  let c := resolve environ env in
  let m1 := built_fs shell upx environ c (fs w) in
  let w' := (process_target shell upx environ env w).1 in
  ∃ l,
    log w' = log w ++ l ∧
    ∀ z, (INFO, MsgSuccess z) ∈ l →
      build_ok shell c (fs w) ∧ zip_result c m1 = inr tt ∧
      fs w' !! bin_filename c = None ∧
      ∃ es, fs w' !! zip_filename c = Some (Archive es).
Proof.
  intros c m1 w'. subst w'. rewrite process_target_cases. fold c m1.
  pose proof (resolve_names_ok environ env) as Hn. fold c in Hn.
  unfold build_ok.
  destruct (shell _ (os_env c) (fs w)).1 as [[|q|q]|]; cbn [fst fs log];
    eexists; (split; [reflexivity|]); intros z.
  - unfold building. rewrite !elem_of_app, list_elem_of_singleton.
    intros [[=]|[H%upx_log_records|H]]; [by destruct H|].
    destruct (packaged_success_inv c m1 z Hn H) as (? & ? & ?). eauto.
  - unfold building. rewrite !elem_of_cons, elem_of_nil. by intros [[=]|[[=]|[]]].
  - unfold building. rewrite !elem_of_cons, elem_of_nil. by intros [[=]|[[=]|[]]].
  - unfold building. rewrite !elem_of_cons, elem_of_nil. by intros [[=]|[[=]|[]]].
Qed.

(** X17: without the [-upx] flag the compressor is never run: two shells
    that treat the build command alike give the same run, however they
    treat every other command. *)
Theorem compressor_not_run_without_flag (shell shell' : Shell)
    (environ : gmap string string) env w :
  let c := resolve environ env in
  (∀ m, shell (build_cmd (bin_filename c)) (os_env c) m
        = shell' (build_cmd (bin_filename c)) (os_env c) m) →
  process_target shell false environ env w = process_target shell' false environ env w.
Proof.
  intros c H. rewrite !process_target_run. fold c.
  unfold try_except, target_body, build_phase, build_step.
  rewrite !bind_run. unfold check_call. by rewrite H.
Qed.

Lemma compressor_not_run_without_flag_witness :
  (∀ m, toolchain_ok (build_cmd (bin_filename sample_cfg)) (os_env sample_cfg) m
        = toolchain_and_upx (build_cmd (bin_filename sample_cfg)) (os_env sample_cfg) m) ∧
  process_target toolchain_ok false ∅ linux_amd64_v3 full_world
    = process_target toolchain_and_upx false ∅ linux_amd64_v3 full_world.
Proof.
  assert (H : ∀ m, toolchain_ok (build_cmd (bin_filename sample_cfg)) (os_env sample_cfg) m
                   = toolchain_and_upx (build_cmd (bin_filename sample_cfg))
                       (os_env sample_cfg) m) by (intros m; reflexivity).
  split; [exact H|].
  exact (compressor_not_run_without_flag toolchain_ok toolchain_and_upx ∅
           linux_amd64_v3 full_world H).
Defined.

(** X18: a file at any depth below the asset directory is stored under
    [web/] followed by its path below that directory, components joined
    by [/], when the archive is written without an exception. *)
Theorem nested_assets_keep_their_path (shell : Shell) (upx : bool)
    (environ : gmap string string) env w web comps st :
  let c := resolve environ env in
  let m1 := built_fs shell upx environ c (fs w) in
  build_ok shell c (fs w) →
  m1 !! WEB_DIR = Some web →
  zip_result c m1 = inr tt →
  file_at web comps st →
  ∃ w' es,
    process_target shell upx environ env w = (w', inr tt) ∧
    fs w' !! zip_filename c = Some (Archive es) ∧
    "web/" +:+ join_comps comps ∈ es.
Proof.
  intros c m1 Hok Hweb Hres Hfile.
  pose proof (resolve_names_ok environ env) as Hn. fold c in Hn.
  destruct (zip_ok_inv c m1 Hn Hres) as [Hzip Hnone].
  eexists _, _. split; [by apply process_target_built|]. cbn [fs]. fold c m1.
  split; [by apply packaged_zip|].
  destruct (os_walk_file_at _ _ _ Hfile WEB_DIR)
    as (root & dirs & files & file & Ht & Hf & Hp).
  destruct (file_at_inv _ _ _ Hfile) as (_ & _ & Hst).
  assert (Hit : (Some st, path_join root file, relpath_up (path_join root file))
                ∈ manifest c m1).
  { unfold manifest. rewrite Hweb, !elem_of_app. do 3 right.
    by apply (web_items_of _ _ _ _ _ (file, st) Ht). }
  destruct (written_all _ _ Hnone Hit) as (n & He & Hin). cbn [fst snd] in He.
  rewrite Hp in He.
  destruct st as [[]| | |]; try done; by injection He as <-.
Qed.

Lemma nested_assets_keep_their_path_witness :
  build_ok toolchain_ok sample_cfg (fs full_world) ∧
  built_fs toolchain_ok false ∅ sample_cfg (fs full_world) !! WEB_DIR
    = Some (Dir [("index.html", File true); ("css", Dir [("style.css", File true)])]) ∧
  zip_result sample_cfg (built_fs toolchain_ok false ∅ sample_cfg (fs full_world))
    = inr tt ∧
  file_at (Dir [("index.html", File true); ("css", Dir [("style.css", File true)])])
    ["css"; "style.css"] (File true) ∧
  ∃ w' es,
    process_target toolchain_ok false ∅ linux_amd64_v3 full_world = (w', inr tt) ∧
    fs w' !! zip_filename sample_cfg = Some (Archive es) ∧
    "web/" +:+ join_comps ["css"; "style.css"] ∈ es.
Proof.
  assert (H1 : build_ok toolchain_ok sample_cfg (fs full_world)) by reflexivity.
  assert (H2 : built_fs toolchain_ok false ∅ sample_cfg (fs full_world) !! WEB_DIR
               = Some (Dir [("index.html", File true);
                            ("css", Dir [("style.css", File true)])]))
    by (vm_compute; reflexivity).
  assert (H3 : zip_result sample_cfg
                 (built_fs toolchain_ok false ∅ sample_cfg (fs full_world)) = inr tt)
    by (vm_compute; reflexivity).
  assert (H4 : file_at (Dir [("index.html", File true);
                             ("css", Dir [("style.css", File true)])])
                 ["css"; "style.css"] (File true)).
  { apply file_below with (sub := Dir [("style.css", File true)]).
    - apply list_elem_of_further, list_elem_of_here.
    - apply file_here; [apply list_elem_of_here|reflexivity]. }
  split; [exact H1|]. split; [exact H2|]. split; [exact H3|]. split; [exact H4|].
  exact (nested_assets_keep_their_path toolchain_ok false ∅ linux_amd64_v3 full_world
           _ _ _ H1 H2 H3 H4).
Defined.

(** X19: when a directory stands at the binary path after the build, the
    archive stores it as the entry [name/], its removal raises, and the
    target ends with an unknown-error record and no success record; the
    directory and the archive stay. *)
Theorem directory_at_binary_path (shell : Shell) (upx : bool)
    (environ : gmap string string) env w ch :
  let c := resolve environ env in
  let m1 := built_fs shell upx environ c (fs w) in
  build_ok shell c (fs w) →
  m1 !! bin_filename c = Some (Dir ch) →
  zip_result c m1 = inr tt →
  ∃ w' es l e,
    process_target shell upx environ env w = (w', inr tt) ∧
    fs w' !! zip_filename c = Some (Archive es) ∧
    bin_filename c +:+ "/" ∈ es ∧
    fs w' !! bin_filename c = Some (Dir ch) ∧
    log w' = log w ++ l ++ [(ERROR, MsgUnknownError e)] ∧
    ∀ z, (INFO, MsgSuccess z) ∉ l.
Proof.
  intros c m1 Hok Hbin Hres.
  pose proof (resolve_names_ok environ env) as Hn. fold c in Hn.
  destruct (zip_ok_inv c m1 Hn Hres) as [Hzip Hnone].
  exists (mkWorld (packaged c m1).1
            (log w ++ [building c] ++ upx_log shell upx environ c (fs w) ++
             (packaged c m1).2)),
         (written (manifest c m1)).1,
         ([building c] ++ upx_log shell upx environ c (fs w) ++
          web_warning None (m1 !! WEB_DIR)),
         (IsADirectoryError (bin_filename c)).
  split; [by apply process_target_built|]. cbn [fs log].
  split; [by apply packaged_zip|]. split.
  { unfold manifest. cbn [app written]. rewrite Hbin. cbn [entry_of fst].
    apply list_elem_of_here. }
  assert (Hp : packaged c m1 =
    (<[zip_filename c := Archive (written (manifest c m1)).1]> m1,
     web_warning None (m1 !! WEB_DIR) ++
     [(ERROR, MsgUnknownError (IsADirectoryError (bin_filename c)))])).
  { unfold packaged. rewrite Hnone, Hbin.
    destruct (m1 !! zip_filename c) as [[| |l|]|]; try done. by destruct (Hzip l). }
  rewrite Hp. cbn [fst snd]. destruct Hn as (Hb & _). split; [|split].
  - by rewrite lookup_insert_ne.
  - by rewrite <- !List.app_assoc.
  - intros z. unfold building. rewrite !elem_of_app, list_elem_of_singleton.
    intros [[=]|[H%upx_log_records|H%web_warning_records]]; [by destruct H|done].
Qed.

Lemma directory_at_binary_path_witness :
  build_ok toolchain_into_dir sample_cfg (fs bare_world) ∧
  built_fs toolchain_into_dir false ∅ sample_cfg (fs bare_world)
    !! bin_filename sample_cfg = Some (Dir [("main", File true)]) ∧
  zip_result sample_cfg (built_fs toolchain_into_dir false ∅ sample_cfg (fs bare_world))
    = inr tt ∧
  ∃ w' es l e,
    process_target toolchain_into_dir false ∅ linux_amd64_v3 bare_world = (w', inr tt) ∧
    fs w' !! zip_filename sample_cfg = Some (Archive es) ∧
    bin_filename sample_cfg +:+ "/" ∈ es ∧
    fs w' !! bin_filename sample_cfg = Some (Dir [("main", File true)]) ∧
    log w' = log bare_world ++ l ++ [(ERROR, MsgUnknownError e)] ∧
    ∀ z, (INFO, MsgSuccess z) ∉ l.
Proof.
  assert (H1 : build_ok toolchain_into_dir sample_cfg (fs bare_world)) by reflexivity.
  assert (H2 : built_fs toolchain_into_dir false ∅ sample_cfg (fs bare_world)
                 !! bin_filename sample_cfg = Some (Dir [("main", File true)]))
    by (vm_compute; reflexivity).
  assert (H3 : zip_result sample_cfg
                 (built_fs toolchain_into_dir false ∅ sample_cfg (fs bare_world))
               = inr tt) by (vm_compute; reflexivity).
  split; [exact H1|]. split; [exact H2|]. split; [exact H3|].
  exact (directory_at_binary_path toolchain_into_dir false ∅ linux_amd64_v3 bare_world
           _ H1 H2 H3).
Defined.

End MoreOutcomes.
